(** * The connector layer of the StarRocks backend: [be/src/connector/connector.h]

    A shallow embedding of the classes declared in [connector.h]
    ([DataSource], [DataSourceProvider], [Connector], [ConnectorManager]),
    followed by the properties the design document states about them.

    C++ objects are records of their data members; a virtual member function
    is a function of the object, and a subclass is a record of optional
    overrides over the bodies the header gives.  Out-parameters are returned
    next to the result.  Member functions that the header only declares are
    modelled from the design document and marked as such. *)

From Stdlib Require Import ZArith Lia.
From stdpp Require Import base option list strings pretty gmap.

#[local] Open Scope Z_scope.

(** ** Machine integers and pointers *)

Module Int.
(** Two's-complement reduction of a mathematical integer to [w] bits. *)
Definition wrap (w : Z) (z : Z) : Z := (z + 2 ^ (w - 1)) mod 2 ^ w - 2 ^ (w - 1).

Definition int32 (z : Z) : Z := wrap 32 z.
Definition int64 (z : Z) : Z := wrap 64 z.

(** [int * int] as C++ evaluates it on 32-bit [int] operands. *)
Definition mul_int (a b : Z) : Z := int32 (a * b).
End Int.

(** Addresses of heap objects the framework owns; [nullptr] is address 0. *)
Definition pointer : Type := N.
Definition nullptr : pointer := 0%N.

(** The dynamic dispatch of a virtual member function: the override of the
    most derived class when there is one, the base body otherwise. *)
Definition dispatch {A : Type} (override : option A) (base_body : A) : A :=
  match override with
  | Some f => f
  | None => base_body
  end.

(** ** Results of calls *)

Module Status.
(** Modelled from the spec: [common/status.h] is not part of the listing;
    a status value carries a kind and a message, [OK] carries neither, and
    end of data is a distinguished kind. *)
Inductive Kind : Type := END_OF_FILE | IO_ERROR | INTERNAL_ERROR | INVALID_ARGUMENT.

Inductive t : Type :=
| OK
| Error (kind : Kind) (msg : string).

Definition ok (st : t) : bool :=
  match st with
  | OK => true
  | Error _ _ => false
  end.

Definition is_end_of_file (st : t) : bool :=
  match st with
  | Error END_OF_FILE _ => true
  | _ => false
  end.
End Status.

(** [StatusOr<T>]: a value, or the status that explains its absence. *)
Inductive StatusOr (A : Type) : Type :=
| Value (a : A)
| Failure (st : Status.t).
Arguments Value {A} a.
Arguments Failure {A} st.

(** What a call does to the process: it hands a value back, it takes the
    process down through a failed [CHECK] (glog logs the streamed text at
    FATAL severity and aborts), or it runs into [__builtin_unreachable()]. *)
Inductive Call (A : Type) : Type :=
| Returns (a : A)
| Fatal (streamed : string)
| Unreachable.
Arguments Returns {A} a.
Arguments Fatal {A} streamed.
Arguments Unreachable {A}.

(** [CHECK(cond) << streamed; rest]. *)
Definition CHECK {A : Type} (cond : bool) (streamed : string) (rest : Call A) : Call A :=
  if cond then rest else Fatal streamed.

(** ** [class DataSource] *)

Module DataSource.

(** The protected data members, with their in-class initialisers. *)
Record Fields : Type := mkFields {
  _read_limit : Z;
  _has_any_predicate : bool;
  _conjunct_ctxs : list pointer;
  _runtime_filters : pointer;
  driver_sequence : Z;
  _runtime_profile : pointer;
  _tuple_desc : pointer;
  _split_context : pointer;
  _morsel : pointer
}.

Definition construct : Fields :=
  {| _read_limit := -1;
     _has_any_predicate := false;
     _conjunct_ctxs := [];
     _runtime_filters := nullptr;
     driver_sequence := 0;
     _runtime_profile := nullptr;
     _tuple_desc := nullptr;
     _split_context := nullptr;
     _morsel := nullptr |}.

Section Class.
(** [Derived]: the data members a subclass adds; [Chunk]: what a
    [ChunkPtr] points to. *)
Context {Derived Chunk : Type}.

Record Object : Type := mkObject {
  base : Fields;
  derived : Derived
}.

(** A subclass: bodies for the pure virtual members, and an optional
    override for each virtual member that has a body in the header. *)
Record Class : Type := mkClass {
  name : Object → string;
  raw_rows_read : Object → Z;
  num_rows_read : Object → Z;
  num_bytes_read : Object → Z;
  cpu_time_spent : Object → Z;
  open_override : option (pointer → Object → Status.t * Object);
  close_override : option (pointer → Object → Object);
  get_next_override :
    option (pointer → option Chunk → Object → Status.t * option Chunk * Object);
  has_any_predicate_override : option (Object → bool);
  io_time_spent_override : option (Object → Z);
  can_estimate_mem_usage_override : option (Object → bool);
  estimated_mem_usage_override : option (Object → Z)
}.

(** The bodies written in the header. *)
Definition base_open (state : pointer) (this : Object) : Status.t * Object :=
  (Status.OK, this).

Definition base_close (state : pointer) (this : Object) : Object := this.

Definition base_get_next (state : pointer) (chunk : option Chunk) (this : Object)
  : Status.t * option Chunk * Object :=
  (Status.OK, chunk, this).

Definition base_has_any_predicate (this : Object) : bool :=
  _has_any_predicate (base this).

Definition base_io_time_spent (this : Object) : Z := 0.
Definition base_can_estimate_mem_usage (this : Object) : bool := false.
Definition base_estimated_mem_usage (this : Object) : Z := 0.

(** Calls through the vtable. *)
Definition open (c : Class) : pointer → Object → Status.t * Object :=
  dispatch (open_override c) base_open.

Definition close (c : Class) : pointer → Object → Object :=
  dispatch (close_override c) base_close.

Definition get_next (c : Class)
  : pointer → option Chunk → Object → Status.t * option Chunk * Object :=
  dispatch (get_next_override c) base_get_next.

Definition has_any_predicate (c : Class) : Object → bool :=
  dispatch (has_any_predicate_override c) base_has_any_predicate.

Definition io_time_spent (c : Class) : Object → Z :=
  dispatch (io_time_spent_override c) base_io_time_spent.

Definition can_estimate_mem_usage (c : Class) : Object → bool :=
  dispatch (can_estimate_mem_usage_override c) base_can_estimate_mem_usage.

Definition estimated_mem_usage (c : Class) : Object → Z :=
  dispatch (estimated_mem_usage_override c) base_estimated_mem_usage.

(** The setters the framework calls before [open]. *)
Definition with_base (f : Fields → Fields) (this : Object) : Object :=
  {| base := f (base this); derived := derived this |}.

Definition set_predicates (predicates : list pointer) : Object → Object :=
  with_base (fun b =>
    mkFields (_read_limit b) (_has_any_predicate b) predicates (_runtime_filters b)
             (driver_sequence b) (_runtime_profile b) (_tuple_desc b)
             (_split_context b) (_morsel b)).

Definition set_runtime_filters (runtime_filters : pointer) : Object → Object :=
  with_base (fun b =>
    mkFields (_read_limit b) (_has_any_predicate b) (_conjunct_ctxs b) runtime_filters
             (driver_sequence b) (_runtime_profile b) (_tuple_desc b)
             (_split_context b) (_morsel b)).

(** [limit] is a [uint64_t] stored into an [int64_t] member. *)
Definition set_read_limit (limit : Z) : Object → Object :=
  with_base (fun b =>
    mkFields (Int.int64 limit) (_has_any_predicate b) (_conjunct_ctxs b)
             (_runtime_filters b) (driver_sequence b) (_runtime_profile b)
             (_tuple_desc b) (_split_context b) (_morsel b)).

Definition set_split_context (split_context : pointer) : Object → Object :=
  with_base (fun b =>
    mkFields (_read_limit b) (_has_any_predicate b) (_conjunct_ctxs b)
             (_runtime_filters b) (driver_sequence b) (_runtime_profile b)
             (_tuple_desc b) split_context (_morsel b)).

Definition set_morsel (morsel : pointer) : Object → Object :=
  with_base (fun b =>
    mkFields (_read_limit b) (_has_any_predicate b) (_conjunct_ctxs b)
             (_runtime_filters b) (driver_sequence b) (_runtime_profile b)
             (_tuple_desc b) (_split_context b) morsel).

Definition set_driver_sequence (seq : Z) : Object → Object :=
  with_base (fun b =>
    mkFields (_read_limit b) (_has_any_predicate b) (_conjunct_ctxs b)
             (_runtime_filters b) seq (_runtime_profile b)
             (_tuple_desc b) (_split_context b) (_morsel b)).
End Class.

Arguments Object : clear implicits.
Arguments Class : clear implicits.
End DataSource.


(** ** A concrete data source *)

Module Reader.
(** Modelled from the spec: the bodies with which a concrete [DataSource]
    subclass overrides [open], [get_next], [close], [raw_rows_read] and
    [num_rows_read] are not in the listing (the header leaves the counters
    pure virtual and gives the other three empty bodies).  The reader below
    follows the design document: [open] acquires the backend resource or
    fails; [get_next] produces the next non-empty batch after applying the
    predicates and runtime filters it was given, or signals end of data
    through a distinguished status; a failure in the middle of a read ends
    the stream; [close] releases the resource, logs a cleanup failure
    instead of reporting it, and may be called again.  [raw_rows_read]
    counts the rows read from storage, [num_rows_read] the rows returned
    after filtering. *)
Section Reader.
Context {Row : Type}.

(** Evaluation of one conjunct, and of the runtime-filter collector, on a
    row: both belong to the expression layer. *)
Variable eval_conjunct : pointer → Row → bool.
Variable probe_runtime_filters : pointer → Row → bool.

(** What the backend answers to one read of the scan range. *)
Inductive Read : Type :=
| Rows (rows : list Row)
| Broken (msg : string).

Definition is_rows (read : Read) : bool :=
  match read with
  | Rows _ => true
  | Broken _ => false
  end.

Inductive Phase : Type := Created | Opened | Finished | Closed.

Record State : Type := mkState {
  phase : Phase;
  acquire_fault : option string;
  pending : list Read;
  release_fault : option string;
  raw_rows : Z;
  num_rows : Z;
  log : list string
}.

Definition fresh (acquire : option string) (reads : list Read) (release : option string)
  : State :=
  mkState Created acquire reads release 0 0 [].

Definition Object : Type := DataSource.Object State.

Definition keeps (this : Object) (row : Row) : bool :=
  forallb (fun e => eval_conjunct e row) (DataSource._conjunct_ctxs (DataSource.base this))
  && (if N.eqb (DataSource._runtime_filters (DataSource.base this)) nullptr
      then true
      else probe_runtime_filters (DataSource._runtime_filters (DataSource.base this)) row).

Definition with_state (this : Object) (s : State) : Object :=
  DataSource.mkObject (DataSource.base this) s.

Definition set_phase (p : Phase) (s : State) : State :=
  mkState p (acquire_fault s) (pending s) (release_fault s) (raw_rows s) (num_rows s) (log s).

Definition open (state : pointer) (this : Object) : Status.t * Object :=
  let s := DataSource.derived this in
  match phase s with
  | Created =>
      match acquire_fault s with
      | Some msg => (Status.Error Status.IO_ERROR msg, with_state this (set_phase Finished s))
      | None => (Status.OK, with_state this (set_phase Opened s))
      end
  | _ => (Status.Error Status.INTERNAL_ERROR "open called on a data source that is not new", this)
  end.

Inductive Pulled : Type :=
| Batch (kept : list Row)
| Exhausted
| Interrupted (msg : string).

(** Reads from storage until a batch survives the filters; every row read
    is counted, whether or not it survives. *)
Fixpoint pull (keep : Row → bool) (reads : list Read) (raw : Z) : Pulled * list Read * Z :=
  match reads with
  | [] => (Exhausted, [], raw)
  | Broken msg :: rest => (Interrupted msg, rest, raw)
  | Rows rows :: rest =>
      let raw' := raw + Z.of_nat (length rows) in
      match List.filter keep rows with
      | [] => pull keep rest raw'
      | kept => (Batch kept, rest, raw')
      end
  end.

Definition get_next (state : pointer) (chunk : option (list Row)) (this : Object)
  : Status.t * option (list Row) * Object :=
  let s := DataSource.derived this in
  match phase s with
  | Opened =>
      match pull (keeps this) (pending s) (raw_rows s) with
      | (Batch kept, rest, raw) =>
          (Status.OK, Some kept,
           with_state this
             (mkState Opened (acquire_fault s) rest (release_fault s) raw
                      (num_rows s + Z.of_nat (length kept)) (log s)))
      | (Exhausted, rest, raw) =>
          (Status.Error Status.END_OF_FILE "end of data", chunk,
           with_state this
             (mkState Finished (acquire_fault s) rest (release_fault s) raw
                      (num_rows s) (log s)))
      | (Interrupted msg, rest, raw) =>
          (Status.Error Status.IO_ERROR msg, chunk,
           with_state this
             (mkState Finished (acquire_fault s) rest (release_fault s) raw
                      (num_rows s) (log s)))
      end
  | _ => (Status.Error Status.INTERNAL_ERROR "get_next called on a data source that is not open",
          chunk, this)
  end.

Definition close (state : pointer) (this : Object) : Object :=
  let s := DataSource.derived this in
  match phase s with
  | Closed => this
  | _ =>
      with_state this
        (mkState Closed (acquire_fault s) [] (release_fault s) (raw_rows s) (num_rows s)
                 (match release_fault s with
                  | Some msg => log s ++ [msg]
                  | None => log s
                  end))
  end.

Definition class : DataSource.Class State (list Row) :=
  {| DataSource.name := fun _ => "Reader";
     DataSource.raw_rows_read := fun this => raw_rows (DataSource.derived this);
     DataSource.num_rows_read := fun this => num_rows (DataSource.derived this);
     DataSource.num_bytes_read := fun _ => 0;
     DataSource.cpu_time_spent := fun _ => 0;
     DataSource.open_override := Some open;
     DataSource.close_override := Some close;
     DataSource.get_next_override := Some get_next;
     DataSource.has_any_predicate_override := None;
     DataSource.io_time_spent_override := None;
     DataSource.can_estimate_mem_usage_override := None;
     DataSource.estimated_mem_usage_override := None |}.

(** A new reader on a scan range, as the provider hands it to a driver
    once the framework has set its predicates and runtime filters. *)
Definition create (predicates : list pointer) (runtime_filters : pointer)
    (acquire : option string) (reads : list Read) (release : option string) : Object :=
  DataSource.set_runtime_filters runtime_filters
    (DataSource.set_predicates predicates
       (DataSource.mkObject DataSource.construct (fresh acquire reads release))).

(** The calls a driver can make, and an arbitrary sequence of them. *)
Inductive Op : Type := DoOpen | DoGetNext | DoClose.

Definition step (state : pointer) (this : Object) (op : Op) : Object :=
  match op with
  | DoOpen => snd (DataSource.open class state this)
  | DoGetNext => snd (DataSource.get_next class state None this)
  | DoClose => DataSource.close class state this
  end.

Definition run (state : pointer) (ops : list Op) (this : Object) : Object :=
  fold_left (step state) ops this.

(** The driver's read loop: [get_next] is called until it returns a status
    other than OK.  [fuel] bounds the number of calls; the loop reports OK
    when the bound is reached before the stream ends. *)
Fixpoint pull_chunks (fuel : nat) (state : pointer) (this : Object)
  : list (list Row) * Status.t * Object :=
  match fuel with
  | O => ([], Status.OK, this)
  | S fuel' =>
      match DataSource.get_next class state None this with
      | (Status.OK, chunk, this') =>
          let '(chunks, st, final) := pull_chunks fuel' state this' in
          (match chunk with Some c => c :: chunks | None => chunks end, st, final)
      | (st, _, this') => ([], st, this')
      end
  end.

(** The life of a data source on one morsel: open, read to the end, close.
    Each successful [get_next] consumes at least one pending read, so one
    call more than there are pending reads is enough. *)
Definition scan (state : pointer) (this : Object) : list (list Row) * Status.t * Object :=
  match DataSource.open class state this with
  | (Status.OK, opened) =>
      let '(chunks, st, final) :=
        pull_chunks (S (length (pending (DataSource.derived opened)))) state opened in
      (chunks, st, DataSource.close class state final)
  | (st, failed) => ([], st, DataSource.close class state failed)
  end.

Definition rows_returned (chunks : list (list Row)) : Z :=
  fold_right (fun c acc => Z.of_nat (length c) + acc) 0 chunks.
End Reader.

Arguments Read : clear implicits.
Arguments State : clear implicits.
Arguments Object : clear implicits.
End Reader.


(** ** Morsels *)

Module Morsel.
(** Modelled from the spec: [exec/pipeline/scan/morsel.h] is not in the
    listing.  A morsel is the unit of scan work handed to one driver; it
    stands for one scan range, or, for a backend without scan ranges, for
    the whole source.  A morsel queue is the ordered collection of the
    morsels of one logical scan. *)
Inductive t (Range : Type) : Type :=
| ScanMorsel (node_id : Z) (scan_range : Range)
| WholeSource (node_id : Z).
Arguments ScanMorsel {Range} node_id scan_range.
Arguments WholeSource {Range} node_id.

Record Queue (Range : Type) : Type := mkQueue {
  morsels : list (t Range)
}.
Arguments mkQueue {Range} morsels.
Arguments morsels {Range} q.

Definition num_morsels {Range : Type} (q : Queue Range) : Z :=
  Z.of_nat (length (morsels q)).

Definition is_whole_source {Range : Type} (m : t Range) : bool :=
  match m with
  | WholeSource _ => true
  | ScanMorsel _ _ => false
  end.
End Morsel.

(** ** [class DataSourceProvider] *)

Module DataSourceProvider.

Definition MIN_DATA_SOURCE_MEM_BYTES : Z := Int.int64 (Int.mul_int (Int.mul_int 16 1024) 1024).
Definition MAX_DATA_SOURCE_MEM_BYTES : Z := Int.int64 (Int.mul_int (Int.mul_int 256 1024) 1024).
Definition PER_FIELD_MEM_BYTES : Z := Int.int64 (Int.mul_int (Int.mul_int 4 1024) 1024).

(** The protected data members, with their in-class initialisers. *)
Record Fields : Type := mkFields {
  _partition_exprs : list pointer;
  _could_split : bool;
  _could_split_physically : bool;
  splitted_scan_rows : Z;
  scan_dop : Z
}.

Definition construct : Fields :=
  {| _partition_exprs := [];
     _could_split := false;
     _could_split_physically := false;
     splitted_scan_rows := 0;
     scan_dop := 0 |}.

Section Class.
(** [Derived]: the data members of the subclass; [Range]: [TScanRangeParams];
    [Mode]: [TTabletInternalParallelMode::type]; [Source]: what a
    [DataSourcePtr] points to. *)
Context {Derived Range Mode Source : Type}.

Record Object : Type := mkObject {
  base : Fields;
  derived : Derived
}.

Definition Conversion : Type :=
  list Range → Z → Z → bool → Mode → Z → Object → StatusOr (Morsel.Queue Range) * Object.

Record Class : Type := mkClass {
  create_data_source : Range → Object → option Source;
  tuple_descriptor : pointer → Object → pointer;
  insert_local_exchange_operator_override : option (Object → bool);
  accept_empty_scan_ranges_override : option (Object → bool);
  stream_data_source_override : option (Object → bool);
  init_override : option (pointer → pointer → Object → Status.t * Object);
  always_shared_scan_override : option (Object → bool);
  peek_scan_ranges_override : option (list Range → Object → Object);
  default_data_source_mem_bytes_override : option (Z → Z → Object → Z * Z);
  convert_scan_range_to_morsel_queue_override : option Conversion;
  (** Modelled from the spec: what the design document leaves to the
      backend.  [interpretable] tells whether the backend can read a scan
      range descriptor at all; [subdivide physically mode pipeline_dop
      ranges] is the splitting policy of a splittable backend, giving the
      sub-ranges and the number of rows they stand for. *)
  interpretable : Range → bool;
  subdivide : bool → Mode → Z → list Range → list Range * Z
}.

(** The non-virtual members. *)
Definition prepare (state : pointer) (this : Object) : Status.t * Object := (Status.OK, this).
Definition open (state : pointer) (this : Object) : Status.t * Object := (Status.OK, this).
Definition close (state : pointer) (this : Object) : Object := this.
Definition partition_exprs (this : Object) : list pointer := _partition_exprs (base this).
Definition could_split (this : Object) : bool := _could_split (base this).
Definition could_split_physically (this : Object) : bool := _could_split_physically (base this).
Definition get_splitted_scan_rows (this : Object) : Z := splitted_scan_rows (base this).
Definition get_scan_dop (this : Object) : Z := scan_dop (base this).

(** The bodies written in the header. *)
Definition base_insert_local_exchange_operator (this : Object) : bool := false.
Definition base_accept_empty_scan_ranges (this : Object) : bool := true.
Definition base_stream_data_source (this : Object) : bool := false.
Definition base_init (pool state : pointer) (this : Object) : Status.t * Object :=
  (Status.OK, this).
Definition base_always_shared_scan (this : Object) : bool := true.
Definition base_peek_scan_ranges (scan_ranges : list Range) (this : Object) : Object := this.

(** [min_value] and [max_value] are the contents of the two cells the
    arguments point to; the result is their contents after the call. *)
Definition base_default_data_source_mem_bytes (min_value max_value : Z) (this : Object)
  : Z * Z :=
  let min_value := MIN_DATA_SOURCE_MEM_BYTES in
  let max_value := MAX_DATA_SOURCE_MEM_BYTES in
  (min_value, max_value).

Definition insert_local_exchange_operator (c : Class) : Object → bool :=
  dispatch (insert_local_exchange_operator_override c) base_insert_local_exchange_operator.

Definition accept_empty_scan_ranges (c : Class) : Object → bool :=
  dispatch (accept_empty_scan_ranges_override c) base_accept_empty_scan_ranges.

Definition stream_data_source (c : Class) : Object → bool :=
  dispatch (stream_data_source_override c) base_stream_data_source.

Definition init (c : Class) : pointer → pointer → Object → Status.t * Object :=
  dispatch (init_override c) base_init.

Definition always_shared_scan (c : Class) : Object → bool :=
  dispatch (always_shared_scan_override c) base_always_shared_scan.

Definition peek_scan_ranges (c : Class) : list Range → Object → Object :=
  dispatch (peek_scan_ranges_override c) base_peek_scan_ranges.

Definition default_data_source_mem_bytes (c : Class) : Z → Z → Object → Z * Z :=
  dispatch (default_data_source_mem_bytes_override c) base_default_data_source_mem_bytes.

Definition record_split (rows dop : Z) (this : Object) : Object :=
  {| base := mkFields (_partition_exprs (base this)) (_could_split (base this))
                      (_could_split_physically (base this)) rows dop;
     derived := derived this |}.

(** Modelled from the spec: the body of
    [DataSourceProvider::convert_scan_range_to_morsel_queue] is in
    [connector.cpp], which is not in the listing.  Following the design
    document: a scan range the backend cannot interpret fails the
    conversion; a backend that does not accept empty scan ranges answers an
    empty list with a queue that stands for the whole source; a splittable
    backend with tablet-internal parallelism enabled subdivides the ranges,
    physically when it can, by its own policy; otherwise every scan range
    becomes exactly one morsel.  The achievable parallelism that is
    recorded is bounded by the drivers of the pipeline and by the morsels
    produced, and without splitting by [num_total_scan_ranges] too; for a
    source without scan ranges it is limited to 1. *)
Definition base_convert_scan_range_to_morsel_queue (c : Class) : Conversion :=
  fun scan_ranges node_id pipeline_dop enable_tablet_internal_parallel
      tablet_internal_parallel_mode num_total_scan_ranges this =>
  if negb (forallb (interpretable c) scan_ranges) then
    (Failure (Status.Error Status.INVALID_ARGUMENT "malformed scan range"), this)
  else if negb (accept_empty_scan_ranges c this) && Nat.eqb (length scan_ranges) 0 then
    (Value (Morsel.mkQueue [Morsel.WholeSource node_id]),
     record_split (get_splitted_scan_rows this) (Z.min pipeline_dop 1) this)
  else if could_split this && enable_tablet_internal_parallel then
    let '(pieces, rows) :=
      subdivide c (could_split_physically this) tablet_internal_parallel_mode
                pipeline_dop scan_ranges in
    (Value (Morsel.mkQueue (map (Morsel.ScanMorsel node_id) pieces)),
     record_split rows (Z.min pipeline_dop (Z.of_nat (length pieces))) this)
  else
    (Value (Morsel.mkQueue (map (Morsel.ScanMorsel node_id) scan_ranges)),
     record_split (get_splitted_scan_rows this)
       (Z.min pipeline_dop (Z.min (Z.of_nat (length scan_ranges)) num_total_scan_ranges))
       this).

Definition convert_scan_range_to_morsel_queue (c : Class) : Conversion :=
  dispatch (convert_scan_range_to_morsel_queue_override c)
           (base_convert_scan_range_to_morsel_queue c).
End Class.

Arguments Object : clear implicits.
Arguments Class : clear implicits.
Arguments Conversion : clear implicits.
End DataSourceProvider.


(** ** [enum ConnectorType] and [class Connector] *)

Module Connector.

Inductive ConnectorType : Type :=
| HIVE | ES | JDBC | MYSQL | FILE | LAKE | BINLOG | ICEBERG.

(** The enumerator values written in the header. *)
Definition value (t : ConnectorType) : Z :=
  match t with
  | HIVE => 0
  | ES => 1
  | JDBC => 2
  | MYSQL => 3
  | FILE => 4
  | LAKE => 5
  | BINLOG => 6
  | ICEBERG => 7
  end.

Definition all_types : list ConnectorType :=
  [HIVE; ES; JDBC; MYSQL; FILE; LAKE; BINLOG; ICEBERG].

(** The enumerator with a given value, if there is one. *)
Definition of_value (z : Z) : option ConnectorType :=
  find (fun t => Z.eqb (value t) z) all_types.

Section Class.
(** [ScanNode]: [ConnectorScanNode]; [PlanNode]: [TPlanNode]; [Provider] and
    [SinkProvider]: what the returned [unique_ptr]s point to, [None] being
    the null pointer. *)
Context {ScanNode PlanNode Provider SinkProvider : Type}.

(** A subclass: [connector_type] is pure virtual, the two factories have a
    body in the header and may be overridden. *)
Record Class : Type := mkClass {
  connector_type : ConnectorType;
  create_data_source_provider_override :
    option (ScanNode → PlanNode → Call (option Provider));
  create_data_sink_provider_override : option (Call (option SinkProvider))
}.

(** An unscoped enumerator streamed into the log is printed as its value. *)
Definition streamed_type (c : Class) : string := pretty (value (connector_type c)).

Definition base_create_data_source_provider (c : Class) (scan_node : ScanNode)
    (plan_node : PlanNode) : Call (option Provider) :=
  CHECK false (streamed_type c +:+ " connector does not implement chunk source yet")
        Unreachable.

Definition base_create_data_sink_provider (c : Class) : Call (option SinkProvider) :=
  CHECK false (streamed_type c +:+ " connector does not implement chunk sink yet")
        Unreachable.

Definition create_data_source_provider (c : Class)
  : ScanNode → PlanNode → Call (option Provider) :=
  dispatch (create_data_source_provider_override c) (base_create_data_source_provider c).

Definition create_data_sink_provider (c : Class) : Call (option SinkProvider) :=
  dispatch (create_data_sink_provider_override c) (base_create_data_sink_provider c).
End Class.

Arguments Class : clear implicits.
End Connector.

(** ** [class ConnectorManager] *)

Module ConnectorManager.

(** [_connectors]: each name is bound to the address held by the owning
    [std::unique_ptr<Connector>] stored in the map. *)
Record t : Type := mkManager {
  _connectors : gmap string pointer
}.

(** The manager before any registration. *)
Definition empty : t := mkManager ∅.

(** Modelled from the spec: the body of [ConnectorManager::get] is in
    [connector.cpp], which is not in the listing.  [get] is a lookup by name
    that returns a non-owning pointer, or the null pointer for "not found";
    it leaves the manager as it is. *)
Definition get (name : string) (this : t) : pointer :=
  match _connectors this !! name with
  | Some connector => connector
  | None => nullptr
  end.

(** Modelled from the spec: the body of [ConnectorManager::put] is in
    [connector.cpp], which is not in the listing.  [put] binds the name to
    the connector and takes the connector over from the caller: the result
    is the manager after the call and what the caller's [unique_ptr] holds
    once it has been moved from. *)
Definition put (name : string) (connector : pointer) (this : t) : t * pointer :=
  (mkManager (<[name := connector]> (_connectors this)), nullptr).

(** The connectors the manager owns. *)
Definition owned (this : t) : list pointer := (map_to_list (_connectors this)).*2.

(** A sequence of calls on the manager, as the process makes them. *)
Inductive Op : Type :=
| Get (name : string)
| Put (name : string) (connector : pointer).

Definition step (this : t) (op : Op) : t :=
  match op with
  | Get name => this
  | Put name connector => fst (put name connector this)
  end.

Definition run (ops : list Op) (this : t) : t := fold_left step ops this.

Definition registers (name : string) (op : Op) : bool :=
  match op with
  | Get _ => false
  | Put name' _ => bool_decide (name' = name)
  end.
End ConnectorManager.


(** ** Sample subclasses and objects *)

Module Samples.

(** A provider that overrides nothing; scan ranges are integers, and a
    negative one is malformed. *)
Definition plain_provider : DataSourceProvider.Class unit Z unit unit :=
  {| DataSourceProvider.create_data_source := fun _ _ => Some tt;
     DataSourceProvider.tuple_descriptor := fun _ _ => nullptr;
     DataSourceProvider.insert_local_exchange_operator_override := None;
     DataSourceProvider.accept_empty_scan_ranges_override := None;
     DataSourceProvider.stream_data_source_override := None;
     DataSourceProvider.init_override := None;
     DataSourceProvider.always_shared_scan_override := None;
     DataSourceProvider.peek_scan_ranges_override := None;
     DataSourceProvider.default_data_source_mem_bytes_override := None;
     DataSourceProvider.convert_scan_range_to_morsel_queue_override := None;
     DataSourceProvider.interpretable := fun r => 0 <=? r;
     DataSourceProvider.subdivide := fun _ _ _ ranges => (ranges, 0) |}.

(** A JDBC-like provider: no notion of scan ranges, so it does not accept an
    empty list of them and asks for a local exchange. *)
Definition jdbc_like_provider : DataSourceProvider.Class unit Z unit unit :=
  {| DataSourceProvider.create_data_source := fun _ _ => Some tt;
     DataSourceProvider.tuple_descriptor := fun _ _ => nullptr;
     DataSourceProvider.insert_local_exchange_operator_override := Some (fun _ => true);
     DataSourceProvider.accept_empty_scan_ranges_override := Some (fun _ => false);
     DataSourceProvider.stream_data_source_override := None;
     DataSourceProvider.init_override := None;
     DataSourceProvider.always_shared_scan_override := None;
     DataSourceProvider.peek_scan_ranges_override := None;
     DataSourceProvider.default_data_source_mem_bytes_override := None;
     DataSourceProvider.convert_scan_range_to_morsel_queue_override := None;
     DataSourceProvider.interpretable := fun r => 0 <=? r;
     DataSourceProvider.subdivide := fun _ _ _ ranges => (ranges, 0) |}.

Definition new_provider : DataSourceProvider.Object unit :=
  DataSourceProvider.mkObject DataSourceProvider.construct tt.

(** A connector that implements neither direction. *)
Definition bare_connector : Connector.Class unit unit unit unit :=
  Connector.mkClass Connector.MYSQL None None.

(** A data source class that overrides nothing, with constant counters. *)
Definition bare_source_class : DataSource.Class unit (list Z) :=
  DataSource.mkClass (fun _ => "bare") (fun _ => 0) (fun _ => 0) (fun _ => 0) (fun _ => 0)
    None None None None None None None.

Definition bare_source : DataSource.Object unit :=
  DataSource.mkObject DataSource.construct tt.

(** Rows are integers; the conjunct at address [e] keeps the rows above [e],
    and the runtime filters keep every row. *)
Definition above (e : pointer) (row : Z) : bool := Z.of_N e <? row.
Definition pass (collector : pointer) (row : Z) : bool := true.

Definition reader_class : DataSource.Class (Reader.State Z) (list Z) :=
  Reader.class above pass.

(** A reader with the predicate "above 10" on a range of three batches, the
    second of which is filtered out entirely. *)
Definition reader : Reader.Object Z :=
  Reader.create [10%N] nullptr None
    [Reader.Rows [5; 11; 12]; Reader.Rows [1; 2]; Reader.Rows [30; 7]] (Some "release failed").
End Samples.


(** The text a call streams into the log before it takes the process down,
    if it does. *)
Definition streamed_text {A : Type} (call : Call A) : option string :=
  match call with
  | Fatal streamed => Some streamed
  | _ => None
  end.

(** ** Calls made by the framework *)

Module Framework.
Section Calls.
Context {Derived Chunk : Type}.

(** The setters of [DataSource] that have a body in the header, as the
    framework calls them on a data source, in any order and any number of
    times. *)
Inductive Setter : Type :=
| SetPredicates (predicates : list pointer)
| SetRuntimeFilters (runtime_filters : pointer)
| SetReadLimit (limit : Z)
| SetSplitContext (split_context : pointer)
| SetMorsel (morsel : pointer)
| SetDriverSequence (driver_sequence : Z).

Definition inject (this : DataSource.Object Derived) (s : Setter) : DataSource.Object Derived :=
  match s with
  | SetPredicates predicates => DataSource.set_predicates predicates this
  | SetRuntimeFilters runtime_filters => DataSource.set_runtime_filters runtime_filters this
  | SetReadLimit limit => DataSource.set_read_limit limit this
  | SetSplitContext split_context => DataSource.set_split_context split_context this
  | SetMorsel morsel => DataSource.set_morsel morsel this
  | SetDriverSequence seq => DataSource.set_driver_sequence seq this
  end.

Definition inject_all (setters : list Setter) (this : DataSource.Object Derived)
  : DataSource.Object Derived :=
  fold_left inject setters this.

(** What a setter call stores in each member, if it is a call of the setter
    of that member. *)
Definition predicates_of (s : Setter) : option (list pointer) :=
  match s with SetPredicates predicates => Some predicates | _ => None end.
Definition runtime_filters_of (s : Setter) : option pointer :=
  match s with SetRuntimeFilters runtime_filters => Some runtime_filters | _ => None end.
Definition read_limit_of (s : Setter) : option Z :=
  match s with SetReadLimit limit => Some (Int.int64 limit) | _ => None end.
Definition split_context_of (s : Setter) : option pointer :=
  match s with SetSplitContext split_context => Some split_context | _ => None end.
Definition morsel_of (s : Setter) : option pointer :=
  match s with SetMorsel morsel => Some morsel | _ => None end.
Definition driver_sequence_of (s : Setter) : option Z :=
  match s with SetDriverSequence seq => Some seq | _ => None end.

(** The value the latest matching call of a sequence stores. *)
Definition latest {A : Type} (pick : Setter → option A) (setters : list Setter) : option A :=
  last (omap pick setters).

(** The three calls of the life of a data source, and what each hands
    back: [open] a status, [get_next] a status and the chunk pointer,
    [close] nothing. *)
Inductive Lifecycle : Type :=
| CallOpen (state : pointer)
| CallGetNext (state : pointer) (chunk : option Chunk)
| CallClose (state : pointer).

Inductive Outcome : Type :=
| Opened (st : Status.t)
| Got (st : Status.t) (chunk : option Chunk)
| Closed.

Definition perform (c : DataSource.Class Derived Chunk) (this : DataSource.Object Derived)
    (op : Lifecycle) : Outcome * DataSource.Object Derived :=
  match op with
  | CallOpen state =>
      let '(st, this') := DataSource.open c state this in (Opened st, this')
  | CallGetNext state chunk =>
      let '(st, chunk', this') := DataSource.get_next c state chunk this in
      (Got st chunk', this')
  | CallClose state => (Closed, DataSource.close c state this)
  end.

Fixpoint perform_all (c : DataSource.Class Derived Chunk) (ops : list Lifecycle)
    (this : DataSource.Object Derived) : list Outcome * DataSource.Object Derived :=
  match ops with
  | [] => ([], this)
  | op :: ops' =>
      let '(outcome, this') := perform c this op in
      let '(outcomes, final) := perform_all c ops' this' in
      (outcome :: outcomes, final)
  end.

(** The outcome of a call that does nothing. *)
Definition idle (op : Lifecycle) : Outcome :=
  match op with
  | CallOpen _ => Opened Status.OK
  | CallGetNext _ chunk => Got Status.OK chunk
  | CallClose _ => Closed
  end.
End Calls.

Arguments Lifecycle : clear implicits.
Arguments Outcome : clear implicits.
End Framework.

Module ProviderCalls.
Section Calls.
Context {Derived Range Mode Source : Type}.

(** The calls on a provider whose bodies are in the header and that take
    the provider itself as their only object. *)
Inductive Op : Type :=
| Prepare (state : pointer)
| Open (state : pointer)
| Close (state : pointer)
| Init (pool state : pointer)
| PeekScanRanges (scan_ranges : list Range).

Definition perform (c : DataSourceProvider.Class Derived Range Mode Source)
    (this : DataSourceProvider.Object Derived) (op : Op)
  : option Status.t * DataSourceProvider.Object Derived :=
  match op with
  | Prepare state =>
      let '(st, this') := DataSourceProvider.prepare state this in (Some st, this')
  | Open state =>
      let '(st, this') := DataSourceProvider.open state this in (Some st, this')
  | Close state => (None, DataSourceProvider.close state this)
  | Init pool state =>
      let '(st, this') := DataSourceProvider.init c pool state this in (Some st, this')
  | PeekScanRanges scan_ranges => (None, DataSourceProvider.peek_scan_ranges c scan_ranges this)
  end.

Fixpoint perform_all (c : DataSourceProvider.Class Derived Range Mode Source)
    (ops : list Op) (this : DataSourceProvider.Object Derived)
  : list Status.t * DataSourceProvider.Object Derived :=
  match ops with
  | [] => ([], this)
  | op :: ops' =>
      let '(st, this') := perform c this op in
      let '(sts, final) := perform_all c ops' this' in
      (match st with Some st => st :: sts | None => sts end, final)
  end.
End Calls.

Arguments Op : clear implicits.
End ProviderCalls.

(** ** Out-parameters in memory *)

Module OutParams.
(** The body of [DataSourceProvider::default_data_source_mem_bytes] on a
    memory of [int64_t] cells: it stores through [min_value], then through
    [max_value].  Both must point to live cells; the result is [None] when
    one does not, where C++ leaves the behaviour undefined. *)
Definition default_data_source_mem_bytes (min_value max_value : pointer)
    (mem : gmap pointer Z) : option (gmap pointer Z) :=
  match mem !! min_value, mem !! max_value with
  | Some _, Some _ =>
      Some (<[max_value := DataSourceProvider.MAX_DATA_SOURCE_MEM_BYTES]>
              (<[min_value := DataSourceProvider.MIN_DATA_SOURCE_MEM_BYTES]> mem))
  | _, _ => None
  end.
End OutParams.

(** ** Teardown of the reader *)

Module Teardown.
Definition is_close (op : Reader.Op) : bool :=
  match op with
  | Reader.DoClose => true
  | _ => false
  end.

Definition is_closed (p : Reader.Phase) : bool :=
  match p with
  | Reader.Closed => true
  | _ => false
  end.

(** What releasing the backend resource adds to the log. *)
Definition release_log (release : option string) : list string :=
  match release with
  | Some msg => [msg]
  | None => []
  end.

(** The state of the teardown after some calls: the release fault the
    backend holds, whether a [close] has run, and the log that goes with
    it. *)
Definition settled {Row : Type} (release : option string) (closed : bool)
    (this : Reader.Object Row) : Prop :=
  Reader.release_fault (DataSource.derived this) = release
  ∧ is_closed (Reader.phase (DataSource.derived this)) = closed
  ∧ Reader.log (DataSource.derived this) = (if closed then release_log release else []).
End Teardown.

(** * Properties *)

(** ** Defaults of [DataSource] *)

Section DataSourceDefaults.
Context {Derived Chunk : Type}.
Implicit Types (c : DataSource.Class Derived Chunk) (this : DataSource.Object Derived).

(** C9.  A data source whose class overrides neither
    [can_estimate_mem_usage] nor [estimated_mem_usage] reports that memory
    estimation is unsupported: the first returns false and the second 0. *)
Theorem mem_estimation_unsupported_by_default c this :
  DataSource.can_estimate_mem_usage_override c = None →
  DataSource.estimated_mem_usage_override c = None →
  DataSource.can_estimate_mem_usage c this = false
  ∧ DataSource.estimated_mem_usage c this = 0.
Proof.
  intros Hcan Hest.
  unfold DataSource.can_estimate_mem_usage, DataSource.estimated_mem_usage.
  rewrite Hcan, Hest. split; reflexivity.
Qed.

(** For a data source whose class does not override [close], the body
    in the header runs: the call returns (its type, [void], has no room for
    a status) and leaves the object as it was, so that a second [close]
    after a first one changes nothing either, whatever runtime state each
    call is given. *)
Theorem close_default_is_repeatable c this (state state' : pointer) :
  DataSource.close_override c = None →
  DataSource.close c state this = this
  ∧ DataSource.close c state' (DataSource.close c state this)
    = DataSource.close c state this.
Proof.
  intros Hclose. unfold DataSource.close. rewrite Hclose. cbn [dispatch].
  unfold DataSource.base_close. split; reflexivity.
Qed.
End DataSourceDefaults.

Lemma mem_estimation_unsupported_by_default_witness :
  DataSource.can_estimate_mem_usage Samples.reader_class Samples.reader = false
  ∧ DataSource.estimated_mem_usage Samples.reader_class Samples.reader = 0.
Proof.
  apply (mem_estimation_unsupported_by_default Samples.reader_class Samples.reader);
    reflexivity.
Defined.

(** ** Defaults of [DataSourceProvider] *)

Section ProviderDefaults.
Context {Derived Range Mode Source : Type}.
Implicit Types (c : DataSourceProvider.Class Derived Range Mode Source)
  (this : DataSourceProvider.Object Derived).

(** C10.  A provider that has just been constructed, of a class that
    overrides none of the four capability flags, answers: no local exchange
    operator, empty scan ranges accepted, not a stream source, always a
    shared scan, not splittable, not physically splittable, scan dop 0 and
    0 split rows. *)
Theorem provider_defaults c (d : Derived) :
  DataSourceProvider.insert_local_exchange_operator_override c = None →
  DataSourceProvider.accept_empty_scan_ranges_override c = None →
  DataSourceProvider.stream_data_source_override c = None →
  DataSourceProvider.always_shared_scan_override c = None →
  let this := DataSourceProvider.mkObject DataSourceProvider.construct d in
  DataSourceProvider.insert_local_exchange_operator c this = false
  ∧ DataSourceProvider.accept_empty_scan_ranges c this = true
  ∧ DataSourceProvider.stream_data_source c this = false
  ∧ DataSourceProvider.always_shared_scan c this = true
  ∧ DataSourceProvider.could_split this = false
  ∧ DataSourceProvider.could_split_physically this = false
  ∧ DataSourceProvider.get_scan_dop this = 0
  ∧ DataSourceProvider.get_splitted_scan_rows this = 0.
Proof.
  intros Hexchange Hempty Hstream Hshared this.
  unfold DataSourceProvider.insert_local_exchange_operator,
    DataSourceProvider.accept_empty_scan_ranges,
    DataSourceProvider.stream_data_source,
    DataSourceProvider.always_shared_scan.
  rewrite Hexchange, Hempty, Hstream, Hshared.
  repeat split.
Qed.

(** C6.  For a provider whose class does not override it,
    [default_data_source_mem_bytes] stores 16MB in the cell [min_value]
    points to and 256MB in the cell [max_value] points to, whatever they
    held; the per-field constant is 4MB. *)
Theorem default_mem_bytes_window c this (min_value max_value : Z) :
  DataSourceProvider.default_data_source_mem_bytes_override c = None →
  DataSourceProvider.default_data_source_mem_bytes c min_value max_value this
    = (16 * 1024 * 1024, 256 * 1024 * 1024)
  ∧ DataSourceProvider.PER_FIELD_MEM_BYTES = 4 * 1024 * 1024.
Proof.
  intros Hmem. unfold DataSourceProvider.default_data_source_mem_bytes.
  rewrite Hmem. split; reflexivity.
Qed.
End ProviderDefaults.

Lemma close_default_is_repeatable_witness :
  DataSource.close Samples.bare_source_class 1%N Samples.bare_source = Samples.bare_source
  ∧ DataSource.close Samples.bare_source_class 2%N
      (DataSource.close Samples.bare_source_class 1%N Samples.bare_source)
    = DataSource.close Samples.bare_source_class 1%N Samples.bare_source.
Proof.
  apply (close_default_is_repeatable Samples.bare_source_class Samples.bare_source 1%N 2%N).
  reflexivity.
Defined.

Lemma provider_defaults_witness :
  DataSourceProvider.insert_local_exchange_operator Samples.plain_provider Samples.new_provider
    = false
  ∧ DataSourceProvider.accept_empty_scan_ranges Samples.plain_provider Samples.new_provider
    = true
  ∧ DataSourceProvider.stream_data_source Samples.plain_provider Samples.new_provider = false
  ∧ DataSourceProvider.always_shared_scan Samples.plain_provider Samples.new_provider = true
  ∧ DataSourceProvider.could_split Samples.new_provider = false
  ∧ DataSourceProvider.could_split_physically Samples.new_provider = false
  ∧ DataSourceProvider.get_scan_dop Samples.new_provider = 0
  ∧ DataSourceProvider.get_splitted_scan_rows Samples.new_provider = 0.
Proof.
  apply (provider_defaults Samples.plain_provider tt); reflexivity.
Defined.

Lemma default_mem_bytes_window_witness :
  DataSourceProvider.default_data_source_mem_bytes
    Samples.jdbc_like_provider (-5) 0 Samples.new_provider = (16777216, 268435456)
  ∧ DataSourceProvider.PER_FIELD_MEM_BYTES = 4194304.
Proof.
  apply (default_mem_bytes_window Samples.jdbc_like_provider Samples.new_provider (-5) 0).
  reflexivity.
Defined.

(** ** Connectors *)

Section ConnectorFactories.
Context {ScanNode PlanNode Provider SinkProvider : Type}.
Implicit Types (c : Connector.Class ScanNode PlanNode Provider SinkProvider).

Lemma CHECK_false_is_fatal {A : Type} (streamed : string) (rest : Call A) :
  CHECK false streamed rest = Fatal streamed.
Proof. reflexivity. Qed.

(** C3.  A connector asked for a direction its class does not override does
    not return: the failed [CHECK] takes the process down with the
    connector type and the reason in the log.  In particular no provider,
    null or not, comes back, and the unreachable marker behind the [CHECK]
    is never run into.  This holds for the read path and for the write
    path. *)
Theorem unsupported_direction_is_fatal c :
  (Connector.create_data_source_provider_override c = None →
   ∀ (scan_node : ScanNode) (plan_node : PlanNode),
     Connector.create_data_source_provider c scan_node plan_node
       = Fatal (pretty (Connector.value (Connector.connector_type c))
                +:+ " connector does not implement chunk source yet")
     ∧ (∀ provider, Connector.create_data_source_provider c scan_node plan_node
                    ≠ Returns provider)
     ∧ Connector.create_data_source_provider c scan_node plan_node ≠ Unreachable)
  ∧ (Connector.create_data_sink_provider_override c = None →
     Connector.create_data_sink_provider c
       = Fatal (pretty (Connector.value (Connector.connector_type c))
                +:+ " connector does not implement chunk sink yet")
     ∧ (∀ provider, Connector.create_data_sink_provider c ≠ Returns provider)
     ∧ Connector.create_data_sink_provider c ≠ Unreachable).
Proof.
  split.
  - intros Hsource scan_node plan_node.
    unfold Connector.create_data_source_provider. rewrite Hsource. cbn [dispatch].
    unfold Connector.base_create_data_source_provider. rewrite CHECK_false_is_fatal.
    repeat split; [intros provider|]; discriminate.
  - intros Hsink.
    unfold Connector.create_data_sink_provider. rewrite Hsink. cbn [dispatch].
    unfold Connector.base_create_data_sink_provider. rewrite CHECK_false_is_fatal.
    repeat split; [intros provider|]; discriminate.
Qed.

(** Every connector type is one of the eight enumerators. *)
Lemma connector_type_cases (t : Connector.ConnectorType) : t ∈ Connector.all_types.
Proof. destruct t; unfold Connector.all_types; set_solver. Qed.

(** C8.  [connector_type()] ranges over a closed enumeration: whatever the
    connector, its type is one of HIVE, ES, JDBC, MYSQL, FILE, LAKE, BINLOG
    and ICEBERG; these eight are pairwise distinct, carry the values 0 to 7
    in this order, and no other integer is the value of a connector type. *)
Theorem connector_type_closed_enumeration :
  (∀ c, Connector.connector_type c ∈ Connector.all_types)
  ∧ Connector.all_types
    = [Connector.HIVE; Connector.ES; Connector.JDBC; Connector.MYSQL;
       Connector.FILE; Connector.LAKE; Connector.BINLOG; Connector.ICEBERG]
  ∧ NoDup Connector.all_types
  ∧ length Connector.all_types = 8%nat
  ∧ Connector.value <$> Connector.all_types = [0; 1; 2; 3; 4; 5; 6; 7]
  ∧ (∀ z t, Connector.of_value z = Some t ↔ Connector.value t = z).
Proof.
  split; [intros c; apply connector_type_cases|].
  split; [reflexivity|].
  split; [apply (NoDup_fmap_1 Connector.value); compute_done|].
  split; [reflexivity|].
  split; [reflexivity|].
  intros z t. split.
  - unfold Connector.of_value. intros Hfind.
    apply find_some in Hfind as [_ Heq]. apply Z.eqb_eq in Heq. exact Heq.
  - intros <-. destruct t; reflexivity.
Qed.
End ConnectorFactories.

Lemma unsupported_direction_is_fatal_witness :
  Connector.create_data_source_provider Samples.bare_connector tt tt
    = Fatal "3 connector does not implement chunk source yet"
  ∧ Connector.create_data_sink_provider Samples.bare_connector
    = Fatal "3 connector does not implement chunk sink yet".
Proof.
  destruct (unsupported_direction_is_fatal Samples.bare_connector) as [Hsource Hsink].
  split.
  - apply (Hsource eq_refl tt tt).
  - apply (Hsink eq_refl).
Defined.

(** ** The connector registry *)

Section Registry.
Implicit Types (this : ConnectorManager.t) (name : string) (connector : pointer)
  (ops : list ConnectorManager.Op).

Lemma get_put_same name connector this :
  ConnectorManager.get name (ConnectorManager.put name connector this).1 = connector.
Proof.
  unfold ConnectorManager.get, ConnectorManager.put. cbn.
  rewrite lookup_insert_eq. reflexivity.
Qed.

Lemma get_put_other name name' connector this :
  name' ≠ name →
  ConnectorManager.get name (ConnectorManager.put name' connector this).1
    = ConnectorManager.get name this.
Proof.
  intros Hne. unfold ConnectorManager.get, ConnectorManager.put. cbn.
  rewrite lookup_insert_ne by exact Hne. reflexivity.
Qed.

(** Calls that do not register [name] leave its binding alone. *)
Lemma run_keeps_binding name ops this :
  existsb (ConnectorManager.registers name) ops = false →
  ConnectorManager._connectors (ConnectorManager.run ops this) !! name
    = ConnectorManager._connectors this !! name.
Proof.
  revert this. induction ops as [|op ops IH]; intros this Hnone; [reflexivity|].
  cbn in Hnone. apply orb_false_elim in Hnone as [Hop Hops].
  unfold ConnectorManager.run in *. cbn [fold_left]. rewrite IH by exact Hops.
  destruct op as [name'|name' connector]; cbn; [reflexivity|].
  cbn in Hop. apply bool_decide_eq_false in Hop.
  apply lookup_insert_ne. exact Hop.
Qed.

Lemma owned_spec this connector :
  connector ∈ ConnectorManager.owned this
  ↔ ∃ name, ConnectorManager._connectors this !! name = Some connector.
Proof.
  unfold ConnectorManager.owned. rewrite list_elem_of_fmap. split.
  - intros [[name p] [-> Hin]]. exists name. apply elem_of_map_to_list. exact Hin.
  - intros [name Hin]. exists (name, connector). split; [reflexivity|].
    apply elem_of_map_to_list. exact Hin.
Qed.

(** C2.  Fix a name.  As long as no [put] under that name has been made,
    whatever else was registered or looked up, [get] of the name returns
    the null pointer.  Once [put name connector] has completed, the caller's
    [unique_ptr] is empty, the manager owns the connector, and [get] of the
    name returns the address of that connector, now and after any further
    calls that do not register the name again. *)
Theorem registry_get_after_put name :
  (∀ ops,
     existsb (ConnectorManager.registers name) ops = false →
     ConnectorManager.get name (ConnectorManager.run ops ConnectorManager.empty) = nullptr)
  ∧ (∀ this connector later,
       existsb (ConnectorManager.registers name) later = false →
       let after := ConnectorManager.run later (ConnectorManager.put name connector this).1 in
       (ConnectorManager.put name connector this).2 = nullptr
       ∧ ConnectorManager.get name (ConnectorManager.put name connector this).1 = connector
       ∧ ConnectorManager.get name after = connector
       ∧ connector ∈ ConnectorManager.owned after).
Proof.
  split.
  - intros ops Hnone. unfold ConnectorManager.get.
    rewrite run_keeps_binding by exact Hnone. cbn. rewrite lookup_empty. reflexivity.
  - intros this connector later Hnone after.
    assert (Hbound : ConnectorManager._connectors after !! name = Some connector).
    { unfold after. rewrite run_keeps_binding by exact Hnone. cbn.
      apply lookup_insert_eq. }
    split; [reflexivity|].
    split; [apply get_put_same|].
    split.
    + unfold ConnectorManager.get. rewrite Hbound. reflexivity.
    + apply owned_spec. exists name. exact Hbound.
Qed.

(** In general [get] returns what the latest [put] under the name stored. *)
Lemma get_after_second_put name first second this :
  ConnectorManager.get name
    (ConnectorManager.put name second (ConnectorManager.put name first this).1).1
  = second.
Proof. apply get_put_same. Qed.
End Registry.

Lemma registry_get_after_put_witness :
  ConnectorManager.get "hive"
    (ConnectorManager.run [ConnectorManager.Put "es" 2%N; ConnectorManager.Get "hive"]
       ConnectorManager.empty) = nullptr
  ∧ (ConnectorManager.put "hive" 1%N ConnectorManager.empty).2 = nullptr
  ∧ ConnectorManager.get "hive"
      (ConnectorManager.run
         [ConnectorManager.Get "hive"; ConnectorManager.Put "jdbc" 3%N;
          ConnectorManager.Get "hive"]
         (ConnectorManager.put "hive" 1%N ConnectorManager.empty).1) = 1%N.
Proof.
  destruct (registry_get_after_put "hive") as [Hbefore Hafter].
  split.
  - apply (Hbefore [ConnectorManager.Put "es" 2%N; ConnectorManager.Get "hive"]).
    reflexivity.
  - pose proof (Hafter ConnectorManager.empty 1%N
                  [ConnectorManager.Get "hive"; ConnectorManager.Put "jdbc" 3%N;
                   ConnectorManager.Get "hive"] eq_refl) as (Hmoved & _ & Hget & _).
    split; [exact Hmoved|exact Hget].
Defined.

(** ** Conversion of scan ranges to morsels *)

Section Conversion.
Context {Derived Range Mode Source : Type}.
Implicit Types (c : DataSourceProvider.Class Derived Range Mode Source)
  (this : DataSourceProvider.Object Derived) (scan_ranges : list Range).

Lemma could_split_record_split rows dop this :
  DataSourceProvider.could_split (DataSourceProvider.record_split rows dop this)
    = DataSourceProvider.could_split this
  ∧ DataSourceProvider.get_scan_dop (DataSourceProvider.record_split rows dop this) = dop
  ∧ DataSourceProvider.get_splitted_scan_rows (DataSourceProvider.record_split rows dop this)
    = rows.
Proof. repeat split. Qed.

(** A scan range the backend cannot interpret fails the conversion and
    leaves the provider as it was. *)
Lemma convert_malformed c scan_ranges node_id pipeline_dop enable mode total this :
  forallb (DataSourceProvider.interpretable c) scan_ranges = false →
  DataSourceProvider.base_convert_scan_range_to_morsel_queue
    c scan_ranges node_id pipeline_dop enable mode total this
  = (Failure (Status.Error Status.INVALID_ARGUMENT "malformed scan range"), this).
Proof.
  intros Hbad. unfold DataSourceProvider.base_convert_scan_range_to_morsel_queue.
  rewrite Hbad. reflexivity.
Qed.

(** C5.  A provider that does not accept empty scan ranges, given the empty
    list of scan ranges, produces a queue of one morsel that stands for the
    whole source; the queue is not empty.  This holds whether or not the
    provider is splittable and whatever the other arguments are. *)
Theorem empty_ranges_yield_whole_source c node_id pipeline_dop enable mode total this :
  DataSourceProvider.accept_empty_scan_ranges c this = false →
  ∃ queue this',
    DataSourceProvider.base_convert_scan_range_to_morsel_queue
      c [] node_id pipeline_dop enable mode total this = (Value queue, this')
    ∧ Morsel.morsels queue = [Morsel.WholeSource node_id]
    ∧ Morsel.num_morsels queue = 1
    ∧ forallb Morsel.is_whole_source (Morsel.morsels queue) = true.
Proof.
  intros Hreject. unfold DataSourceProvider.base_convert_scan_range_to_morsel_queue.
  cbn [forallb negb length Nat.eqb]. rewrite Hreject. cbn [negb andb].
  eexists _, _. split; [reflexivity|]. repeat split.
Qed.

(** Where the modelled conversion gives one morsel per scan range.  Let the
    provider be not splittable and let every one of the N scan ranges be
    interpretable by the backend.  If N is at least 1, or if the provider
    accepts empty scan ranges, the conversion succeeds with exactly N
    morsels, the i-th of which stands for the i-th scan range, and the scan
    dop it records is at most N and at most [num_total_scan_ranges]. *)
Theorem unsplittable_one_morsel_per_range
    c scan_ranges node_id pipeline_dop enable mode total this :
  DataSourceProvider.could_split this = false →
  forallb (DataSourceProvider.interpretable c) scan_ranges = true →
  scan_ranges ≠ [] ∨ DataSourceProvider.accept_empty_scan_ranges c this = true →
  ∃ queue this',
    DataSourceProvider.base_convert_scan_range_to_morsel_queue
      c scan_ranges node_id pipeline_dop enable mode total this = (Value queue, this')
    ∧ Morsel.morsels queue = Morsel.ScanMorsel node_id <$> scan_ranges
    ∧ Morsel.num_morsels queue = Z.of_nat (length scan_ranges)
    ∧ DataSourceProvider.get_scan_dop this' ≤ Z.of_nat (length scan_ranges)
    ∧ DataSourceProvider.get_scan_dop this' ≤ total.
Proof.
  intros Hsplit Hgood Hsome.
  unfold DataSourceProvider.base_convert_scan_range_to_morsel_queue.
  rewrite Hgood, Hsplit. cbn [negb andb].
  assert (Hwhole : negb (DataSourceProvider.accept_empty_scan_ranges c this)
                   && Nat.eqb (length scan_ranges) 0 = false).
  { destruct Hsome as [Hne | Haccept].
    - destruct scan_ranges; [contradiction|]. apply andb_false_r.
    - rewrite Haccept. reflexivity. }
  rewrite Hwhole. eexists _, _. split; [reflexivity|].
  unfold Morsel.num_morsels. cbn [Morsel.morsels DataSourceProvider.get_scan_dop
    DataSourceProvider.record_split DataSourceProvider.base DataSourceProvider.scan_dop].
  rewrite length_fmap. repeat split; lia.
Qed.
End Conversion.

Lemma empty_ranges_yield_whole_source_witness :
  ∃ queue this',
    DataSourceProvider.base_convert_scan_range_to_morsel_queue
      Samples.jdbc_like_provider [] 7 8 false tt 0 Samples.new_provider = (Value queue, this')
    ∧ Morsel.morsels queue = [Morsel.WholeSource 7]
    ∧ Morsel.num_morsels queue = 1
    ∧ forallb Morsel.is_whole_source (Morsel.morsels queue) = true.
Proof.
  apply (empty_ranges_yield_whole_source
           Samples.jdbc_like_provider 7 8 false tt 0 Samples.new_provider).
  reflexivity.
Defined.

(** The scenario of the design document: a JDBC-like provider, three scan
    ranges and eight drivers. *)
Lemma unsplittable_one_morsel_per_range_witness :
  ∃ queue this',
    DataSourceProvider.base_convert_scan_range_to_morsel_queue
      Samples.jdbc_like_provider [4; 5; 6] 7 8 false tt 3 Samples.new_provider
    = (Value queue, this')
    ∧ Morsel.morsels queue = Morsel.ScanMorsel 7 <$> [4; 5; 6]
    ∧ Morsel.num_morsels queue = 3
    ∧ DataSourceProvider.get_scan_dop this' ≤ 3
    ∧ DataSourceProvider.get_scan_dop this' ≤ 3.
Proof.
  apply (unsplittable_one_morsel_per_range
           Samples.jdbc_like_provider [4; 5; 6] 7 8 false tt 3 Samples.new_provider).
  - reflexivity.
  - reflexivity.
  - left. discriminate.
Defined.

Example jdbc_like_three_ranges :
  DataSourceProvider.base_convert_scan_range_to_morsel_queue
    Samples.jdbc_like_provider [4; 5; 6] 7 8 false tt 3 Samples.new_provider
  = (Value (Morsel.mkQueue [Morsel.ScanMorsel 7 4; Morsel.ScanMorsel 7 5; Morsel.ScanMorsel 7 6]),
     DataSourceProvider.record_split 0 3 Samples.new_provider).
Proof. reflexivity. Qed.

(** Where it does not: a provider that is not splittable and does not
    accept empty scan ranges turns zero scan ranges into one morsel, the one
    that stands for the whole source. *)
Lemma unsplittable_zero_ranges_whole_source :
  DataSourceProvider.could_split Samples.new_provider = false
  ∧ DataSourceProvider.base_convert_scan_range_to_morsel_queue
      Samples.jdbc_like_provider [] 7 8 false tt 0 Samples.new_provider
    = (Value (Morsel.mkQueue [Morsel.WholeSource 7]),
       DataSourceProvider.record_split 0 1 Samples.new_provider)
  ∧ Morsel.num_morsels (Morsel.mkQueue (Range := Z) [Morsel.WholeSource 7])
    ≠ Z.of_nat (length (@nil Z)).
Proof.
  split; [reflexivity|]. split; [reflexivity|]. discriminate.
Qed.

(** ** Row accounting of a data source *)

Section ReaderAccounting.
Context {Row : Type}.
Variable eval_conjunct : pointer → Row → bool.
Variable probe_runtime_filters : pointer → Row → bool.
Implicit Types (this : Reader.Object Row) (reads : list (Reader.Read Row)) (state : pointer).

Local Abbreviation class := (Reader.class eval_conjunct probe_runtime_filters).
Local Abbreviation raw_of this := (DataSource.raw_rows_read class this).
Local Abbreviation num_of this := (DataSource.num_rows_read class this).
Local Abbreviation pending_of this := (Reader.pending (DataSource.derived this)).

(** One pull never loses count of a row it read, and a batch it returns is
    not empty, holds only rows that pass the filters and used up a read. *)
Lemma pull_counts keep reads raw :
  ∀ pulled rest raw',
    Reader.pull keep reads raw = (pulled, rest, raw') →
    raw ≤ raw'
    ∧ (length rest ≤ length reads)%nat
    ∧ match pulled with
      | Reader.Batch kept =>
          raw + Z.of_nat (length kept) ≤ raw'
          ∧ (length rest < length reads)%nat
          ∧ kept ≠ []
          ∧ forallb keep kept = true
      | _ => True
      end.
Proof.
  revert raw. induction reads as [|[rows|msg] reads IH]; intros raw pulled rest raw' Hpull.
  - cbn in Hpull. injection Hpull as <- <- <-. repeat split; lia.
  - cbn [Reader.pull] in Hpull.
    pose proof (List.filter_length_le keep rows) as Hle.
    destruct (List.filter keep rows) as [|r kept] eqn:Hkept.
    + apply IH in Hpull as (Hraw & Hlen & Hbatch). cbn [length] in *.
      split; [lia|]. split; [lia|]. destruct pulled; [|exact I|exact I].
      destruct Hbatch as (? & ? & ? & ?). repeat split; try assumption; lia.
    + injection Hpull as <- <- <-. cbn [length] in *.
      split; [lia|]. split; [lia|]. split; [lia|]. split; [lia|].
      split; [discriminate|].
      rewrite <- Hkept. apply forallb_forall. intros x Hx.
      apply List.filter_In in Hx as [_ Hx]. exact Hx.
  - cbn in Hpull. injection Hpull as <- <- <-. cbn [length]. repeat split; lia.
Qed.

(** What one [get_next] does to the counters and to the pending reads. *)
Lemma get_next_counts state chunk this :
  ∀ st chunk' this',
    DataSource.get_next class state chunk this = (st, chunk', this') →
    raw_of this ≤ raw_of this'
    ∧ (length (pending_of this') ≤ length (pending_of this))%nat
    ∧ match st with
      | Status.OK =>
          ∃ kept, chunk' = Some kept ∧ kept ≠ []
            ∧ num_of this' = num_of this + Z.of_nat (length kept)
            ∧ raw_of this + Z.of_nat (length kept) ≤ raw_of this'
            ∧ (length (pending_of this') < length (pending_of this))%nat
      | Status.Error _ _ => num_of this' = num_of this
      end.
Proof.
  intros st chunk' this'. cbn. unfold Reader.get_next.
  destruct (Reader.phase (DataSource.derived this)).
  1, 3, 4: intros [= <- <- <-]; repeat split; lia.
  destruct (Reader.pull _ _ _) as [[pulled rest] raw'] eqn:Hpull.
  apply pull_counts in Hpull as (Hraw & Hlen & Hbatch).
  destruct pulled as [kept| |msg]; intros [= <- <- <-]; cbn.
  - destruct Hbatch as (Hsum & Hlt & Hne & _).
    split; [lia|]. split; [lia|]. exists kept. repeat split; try assumption; lia.
  - repeat split; lia.
  - repeat split; lia.
Qed.

Lemma open_counts state this :
  raw_of (DataSource.open class state this).2 = raw_of this
  ∧ num_of (DataSource.open class state this).2 = num_of this.
Proof.
  cbn. unfold Reader.open.
  destruct (Reader.phase (DataSource.derived this));
    [destruct (Reader.acquire_fault (DataSource.derived this))| | |]; split; reflexivity.
Qed.

Lemma close_counts state this :
  raw_of (DataSource.close class state this) = raw_of this
  ∧ num_of (DataSource.close class state this) = num_of this.
Proof.
  cbn. unfold Reader.close.
  destruct (Reader.phase (DataSource.derived this)); split; reflexivity.
Qed.

(** No call makes the rows returned exceed the rows read. *)
Lemma step_keeps_order state this op :
  num_of this ≤ raw_of this →
  num_of (Reader.step eval_conjunct probe_runtime_filters state this op)
  ≤ raw_of (Reader.step eval_conjunct probe_runtime_filters state this op).
Proof.
  intros Hle. destruct op; unfold Reader.step.
  - destruct (open_counts state this) as [-> ->]. exact Hle.
  - destruct (DataSource.get_next class state None this) as [[st chunk'] this'] eqn:Hnext.
    apply get_next_counts in Hnext as (Hraw & _ & Hst). cbn [snd].
    destruct st as [|kind msg]; [destruct Hst as (kept & _ & _ & Hnum & Hsum & _)|]; lia.
  - destruct (close_counts state this) as [-> ->]. exact Hle.
Qed.

Lemma run_keeps_order state ops this :
  num_of this ≤ raw_of this →
  num_of (Reader.run eval_conjunct probe_runtime_filters state ops this)
  ≤ raw_of (Reader.run eval_conjunct probe_runtime_filters state ops this).
Proof.
  revert this. induction ops as [|op ops IH]; intros this Hle; [exact Hle|].
  unfold Reader.run in *. cbn [fold_left]. apply IH, step_keeps_order, Hle.
Qed.

(** The read loop returns exactly the rows it adds to [num_rows_read], reads
    at least that many, and with more fuel than pending reads it stops
    because the stream ended, not because the fuel did. *)
Lemma pull_chunks_counts fuel state :
  ∀ this chunks st final,
    Reader.pull_chunks eval_conjunct probe_runtime_filters fuel state this
      = (chunks, st, final) →
    num_of final = num_of this + Reader.rows_returned chunks
    ∧ raw_of this + Reader.rows_returned chunks ≤ raw_of final
    ∧ Forall (fun chunk => chunk ≠ []) chunks
    ∧ ((length (pending_of this) < fuel)%nat → Status.ok st = false).
Proof.
  induction fuel as [|fuel IH]; intros this chunks st final Hloop.
  - cbn in Hloop. injection Hloop as <- <- <-. cbn [Reader.rows_returned fold_right].
    split; [lia|]. split; [lia|]. split; [constructor|]. intros Hfuel. lia.
  - cbn [Reader.pull_chunks] in Hloop.
    destruct (DataSource.get_next class state None this) as [[st1 chunk1] this1] eqn:Hnext.
    apply get_next_counts in Hnext as (Hraw & Hlen & Hst).
    destruct st1 as [|kind msg].
    + destruct Hst as (kept & -> & Hne & Hnum & Hsum & Hlt).
      destruct (Reader.pull_chunks _ _ fuel state this1) as [[chunks2 st2] final2] eqn:Hrest.
      injection Hloop as <- <- <-.
      apply IH in Hrest as (Hnum2 & Hraw2 & Hall & Hstop).
      cbn [Reader.rows_returned fold_right].
      fold (Reader.rows_returned chunks2).
      split; [lia|]. split; [lia|]. split; [constructor; assumption|].
      intros Hfuel. apply Hstop. lia.
    + injection Hloop as <- <- <-. cbn [Reader.rows_returned fold_right].
      split; [lia|]. split; [lia|]. split; [constructor|]. intros _. reflexivity.
Qed.

(** C4.  Take a new reader on any scan range, with any predicates and
    runtime filters and any backend faults.  Through every sequence of
    [open], [get_next] and [close] calls, [raw_rows_read()] is at least
    [num_rows_read()].  And when the reader is opened, read until
    [get_next] stops returning OK and closed, the read loop does stop, and
    the rows of the batches it returned add up to [num_rows_read()] as it
    stands after [close]. *)
Theorem rows_returned_match_num_rows_read
    (predicates : list pointer) (runtime_filters : pointer)
    (acquire release : option string) reads state :
  let this := Reader.create predicates runtime_filters acquire reads release in
  (∀ ops,
     num_of (Reader.run eval_conjunct probe_runtime_filters state ops this)
     ≤ raw_of (Reader.run eval_conjunct probe_runtime_filters state ops this))
  ∧ ∃ chunks st final,
      Reader.scan eval_conjunct probe_runtime_filters state this = (chunks, st, final)
      ∧ Status.ok st = false
      ∧ Reader.phase (DataSource.derived final) = Reader.Closed
      ∧ Reader.rows_returned chunks = num_of final
      ∧ num_of final ≤ raw_of final.
Proof.
  intros this. split.
  - intros ops. apply run_keeps_order. cbn. lia.
  - unfold Reader.scan.
    destruct (DataSource.open class state this) as [st0 opened] eqn:Hopen.
    pose proof (open_counts state this) as [Hraw0 Hnum0]. rewrite Hopen in Hraw0, Hnum0.
    cbn [snd] in Hraw0, Hnum0.
    assert (Hclosed : ∀ o, Reader.phase (DataSource.derived (DataSource.close class state o))
                           = Reader.Closed).
    { intros o. cbn. unfold Reader.close.
      destruct (Reader.phase (DataSource.derived o)) eqn:Hphase; cbn; auto. }
    destruct st0 as [|kind msg].
    + destruct (Reader.pull_chunks _ _ _ state opened) as [[chunks st] final] eqn:Hloop.
      apply pull_chunks_counts in Hloop as (Hnum & Hraw & _ & Hstop).
      exists chunks, st, (DataSource.close class state final).
      destruct (close_counts state final) as [Hraw1 Hnum1].
      split; [reflexivity|]. split; [apply Hstop; lia|]. split; [apply Hclosed|].
      rewrite Hraw1, Hnum1, Hnum, Hnum0. cbn in Hraw0 |- *. cbn in Hraw. split; lia.
    + exists [], (Status.Error kind msg), (DataSource.close class state opened).
      destruct (close_counts state opened) as [Hraw1 Hnum1].
      split; [reflexivity|]. split; [reflexivity|]. split; [apply Hclosed|].
      rewrite Hraw1, Hnum1, Hnum0, Hraw0. cbn. split; lia.
Qed.

(** Without backend faults a pull is never interrupted, and what is left
    to read is free of faults too. *)
Lemma pull_fault_free keep reads raw :
  forallb Reader.is_rows reads = true →
  ∀ pulled rest raw',
    Reader.pull keep reads raw = (pulled, rest, raw') →
    forallb Reader.is_rows rest = true
    ∧ ∀ msg, pulled ≠ Reader.Interrupted msg.
Proof.
  revert raw. induction reads as [|[rows|bad] reads IH]; intros raw Hfine pulled rest raw'.
  - intros [= <- <- <-]. split; [reflexivity|discriminate].
  - cbn [forallb Reader.is_rows andb] in Hfine. cbn [Reader.pull].
    destruct (List.filter keep rows); [apply IH; exact Hfine|].
    intros [= <- <- <-]. split; [exact Hfine|discriminate].
  - discriminate.
Qed.

Lemma pull_chunks_end_of_data fuel state :
  ∀ this chunks st final,
    Reader.phase (DataSource.derived this) = Reader.Opened →
    forallb Reader.is_rows (pending_of this) = true →
    (length (pending_of this) < fuel)%nat →
    Reader.pull_chunks eval_conjunct probe_runtime_filters fuel state this
      = (chunks, st, final) →
    Status.is_end_of_file st = true.
Proof.
  induction fuel as [|fuel IH]; intros this chunks st final Hphase Hfine Hfuel; [lia|].
  cbn [Reader.pull_chunks]. cbn [DataSource.get_next Reader.class dispatch
    DataSource.get_next_override]. unfold Reader.get_next. rewrite Hphase.
  destruct (Reader.pull _ _ _) as [[pulled rest] raw'] eqn:Hpull.
  pose proof (pull_counts _ _ _ _ _ _ Hpull) as (_ & _ & Hbatch).
  apply pull_fault_free in Hpull as [Hrest Hnot]; [|exact Hfine].
  destruct pulled as [kept| |msg].
  - destruct Hbatch as (_ & Hlt & _).
    destruct (Reader.pull_chunks _ _ fuel state _) as [[chunks2 st2] final2] eqn:Hloop.
    intros [= <- <- <-]. eapply IH in Hloop; [exact Hloop|reflexivity|exact Hrest|].
    cbn. lia.
  - intros [= <- <- <-]. reflexivity.
  - exfalso. exact (Hnot msg eq_refl).
Qed.

(** A scan whose backend never faults runs until end of data. *)
Lemma scan_reaches_end_of_data
    (predicates : list pointer) (runtime_filters : pointer) (release : option string)
    reads state :
  forallb Reader.is_rows reads = true →
  Status.is_end_of_file
    (Reader.scan eval_conjunct probe_runtime_filters state
       (Reader.create predicates runtime_filters None reads release)).1.2 = true.
Proof.
  intros Hfine. unfold Reader.scan. cbn [DataSource.open Reader.class dispatch
    DataSource.open_override]. cbn -[Reader.pull_chunks DataSource.close].
  destruct (Reader.pull_chunks _ _ _ state _) as [[chunks st] final] eqn:Hloop.
  cbn [fst snd]. eapply pull_chunks_end_of_data in Hloop; [exact Hloop|reflexivity| |].
  - exact Hfine.
  - cbn. lia.
Qed.

(** The reader's own [close]: it always returns, a cleanup failure ends up
    in the log and nowhere else, and a second call changes nothing. *)
Lemma reader_close_is_repeatable state state' this :
  Reader.phase (DataSource.derived (DataSource.close class state this)) = Reader.Closed
  ∧ DataSource.close class state' (DataSource.close class state this)
    = DataSource.close class state this.
Proof.
  cbn. unfold Reader.close.
  destruct (Reader.phase (DataSource.derived this)) eqn:Hphase; cbn; rewrite ?Hphase;
    split; reflexivity.
Qed.

Lemma reader_close_logs_failure state this msg :
  Reader.phase (DataSource.derived this) ≠ Reader.Closed →
  Reader.release_fault (DataSource.derived this) = Some msg →
  Reader.log (DataSource.derived (DataSource.close class state this))
    = Reader.log (DataSource.derived this) ++ [msg].
Proof.
  intros Hopen Hfault. cbn. unfold Reader.close.
  destruct (Reader.phase (DataSource.derived this)); cbn; rewrite ?Hfault;
    try reflexivity. contradiction.
Qed.
End ReaderAccounting.

(** The sample reader: seven rows read, three returned in two batches, and
    the failed release recorded in the log. *)
Example sample_scan :
  let '(chunks, st, final) := Reader.scan Samples.above Samples.pass 0%N Samples.reader in
  chunks = [[11; 12]; [30]]
  ∧ Status.is_end_of_file st = true
  ∧ DataSource.raw_rows_read Samples.reader_class final = 7
  ∧ DataSource.num_rows_read Samples.reader_class final = 3
  ∧ Reader.log (DataSource.derived final) = ["release failed"].
Proof. vm_compute. repeat split. Qed.

(** ** The setters of a data source *)

Section Setters.
Context {Derived Chunk : Type}.
Implicit Types (c : DataSource.Class Derived Chunk) (this : DataSource.Object Derived)
  (setters : list Framework.Setter).

(** A [uint64_t] converted to [int64_t]: unchanged below 2^63, lowered by
    2^64 from there on. *)
Lemma int64_of_uint64 (z : Z) :
  0 ≤ z < 2 ^ 64 →
  Int.int64 z = if z <? 2 ^ 63 then z else z - 2 ^ 64.
Proof.
  intros Hrange. unfold Int.int64, Int.wrap.
  change (2 ^ (64 - 1)) with 9223372036854775808.
  change (2 ^ 63) with 9223372036854775808.
  change (2 ^ 64) with 18446744073709551616 in *.
  destruct (Z.ltb_spec z 9223372036854775808) as [Hlow | Hhigh].
  - rewrite Z.mod_small by lia. lia.
  - replace (z + 9223372036854775808)
      with (z - 9223372036854775808 + 1 * 18446744073709551616) by lia.
    rewrite Z_mod_plus_full, Z.mod_small by lia. lia.
Qed.

(** [set_read_limit] takes a [uint64_t] and stores it in the [int64_t]
    member [_read_limit].  A limit below 2^63 is stored as it is; a limit of
    2^63 or more is stored as a negative number, the limit minus 2^64, so
    that the largest [uint64_t] is stored as -1, the value the member has
    when no limit was set.  The stored value always fits [int64_t]. *)
Theorem set_read_limit_conversion this (limit : Z) :
  0 ≤ limit < 2 ^ 64 →
  let stored := DataSource._read_limit (DataSource.base (DataSource.set_read_limit limit this)) in
  (limit < 2 ^ 63 → stored = limit)
  ∧ (2 ^ 63 ≤ limit → stored = limit - 2 ^ 64 ∧ stored < 0)
  ∧ (limit = 2 ^ 64 - 1 → stored = DataSource._read_limit DataSource.construct)
  ∧ - 2 ^ 63 ≤ stored < 2 ^ 63.
Proof.
  intros Hrange stored. subst stored. cbn.
  rewrite int64_of_uint64 by exact Hrange.
  change (2 ^ 63) with 9223372036854775808 in *.
  change (2 ^ 64) with 18446744073709551616 in *.
  destruct (Z.ltb_spec limit 9223372036854775808); repeat split; intros; lia.
Qed.

(** The latest matching call of a sequence that starts with [s]. *)
Lemma latest_cons {A : Type} (pick : Framework.Setter → option A) s setters :
  Framework.latest pick (s :: setters)
  = match Framework.latest pick setters with
    | Some v => Some v
    | None => pick s
    end.
Proof.
  unfold Framework.latest. cbn [omap list_omap].
  destruct (pick s) as [v|]; [|destruct (last _); reflexivity].
  destruct (omap pick setters) as [|w ws] eqn:Hrest; [reflexivity|].
  rewrite last_cons. destruct (last (w :: ws)) eqn:Hlast; [reflexivity|].
  apply last_None in Hlast. discriminate.
Qed.

(** A member read by [field] after a sequence of setter calls, when every
    single call stores in it what [pick] says or leaves it alone. *)
Lemma inject_all_field {A : Type} (field : DataSource.Fields → A)
    (pick : Framework.Setter → option A) :
  (∀ this s,
     field (DataSource.base (Framework.inject this s))
     = default (field (DataSource.base this)) (pick s)) →
  ∀ setters this,
    field (DataSource.base (Framework.inject_all setters this))
    = default (field (DataSource.base this)) (Framework.latest pick setters).
Proof.
  intros Hone setters. induction setters as [|s setters IH]; intros this; [reflexivity|].
  unfold Framework.inject_all in *. cbn [fold_left]. rewrite IH, latest_cons.
  destruct (Framework.latest pick setters); [reflexivity|apply Hone].
Qed.

(** A member that no single setter call changes is unchanged by a sequence
    of them. *)
Lemma inject_all_untouched {A : Type} (field : DataSource.Fields → A) :
  (∀ this s, field (DataSource.base (Framework.inject this s)) = field (DataSource.base this)) →
  ∀ setters this,
    field (DataSource.base (Framework.inject_all setters this)) = field (DataSource.base this).
Proof.
  intros Hone setters. induction setters as [|s setters IH]; intros this; [reflexivity|].
  unfold Framework.inject_all in *. cbn [fold_left]. rewrite IH. apply Hone.
Qed.

(** Whatever the order and number of setter calls, each member the setters
    write holds what the latest call of its own setter stored (for the read
    limit, the limit converted to [int64_t]), or what it held before when
    its setter was not called; the members no setter writes, and the
    members of the subclass, are as before. *)
Theorem setters_last_call_wins setters this :
  let after := Framework.inject_all setters this in
  DataSource._conjunct_ctxs (DataSource.base after)
    = default (DataSource._conjunct_ctxs (DataSource.base this))
              (Framework.latest Framework.predicates_of setters)
  ∧ DataSource._runtime_filters (DataSource.base after)
    = default (DataSource._runtime_filters (DataSource.base this))
              (Framework.latest Framework.runtime_filters_of setters)
  ∧ DataSource._read_limit (DataSource.base after)
    = default (DataSource._read_limit (DataSource.base this))
              (Framework.latest Framework.read_limit_of setters)
  ∧ DataSource._split_context (DataSource.base after)
    = default (DataSource._split_context (DataSource.base this))
              (Framework.latest Framework.split_context_of setters)
  ∧ DataSource._morsel (DataSource.base after)
    = default (DataSource._morsel (DataSource.base this))
              (Framework.latest Framework.morsel_of setters)
  ∧ DataSource.driver_sequence (DataSource.base after)
    = default (DataSource.driver_sequence (DataSource.base this))
              (Framework.latest Framework.driver_sequence_of setters)
  ∧ DataSource._has_any_predicate (DataSource.base after)
    = DataSource._has_any_predicate (DataSource.base this)
  ∧ DataSource._runtime_profile (DataSource.base after)
    = DataSource._runtime_profile (DataSource.base this)
  ∧ DataSource._tuple_desc (DataSource.base after)
    = DataSource._tuple_desc (DataSource.base this)
  ∧ DataSource.derived after = DataSource.derived this.
Proof.
  intros after. subst after.
  repeat match goal with |- _ ∧ _ => split end.
  1-6: apply inject_all_field; intros obj []; reflexivity.
  1-3: apply inject_all_untouched; intros obj []; reflexivity.
  revert this. induction setters as [|s setters IH]; intros this; [reflexivity|].
  unfold Framework.inject_all in *. cbn [fold_left]. rewrite IH. destruct s; reflexivity.
Qed.

(** [has_any_predicate()] of a class that does not override it answers from
    the cached member, and no setter refreshes that member: after any
    sequence of setter calls the answer is what it was before, even when
    predicates or runtime filters were set in between. *)
Theorem has_any_predicate_not_refreshed c setters this :
  DataSource.has_any_predicate_override c = None →
  DataSource.has_any_predicate c (Framework.inject_all setters this)
  = DataSource.has_any_predicate c this.
Proof.
  intros Hcached. unfold DataSource.has_any_predicate. rewrite Hcached. cbn [dispatch].
  unfold DataSource.base_has_any_predicate.
  apply inject_all_untouched. intros obj []; reflexivity.
Qed.

Lemma perform_idle c this op :
  DataSource.open_override c = None →
  DataSource.get_next_override c = None →
  DataSource.close_override c = None →
  Framework.perform c this op = (Framework.idle op, this).
Proof.
  intros Hopen Hnext Hclose. destruct op; unfold Framework.perform,
    DataSource.open, DataSource.get_next, DataSource.close;
    rewrite ?Hopen, ?Hnext, ?Hclose; reflexivity.
Qed.

(** A data source of a class that overrides none of [open], [get_next] and
    [close] does nothing through any sequence of these calls: every [open]
    and every [get_next] returns OK, [get_next] hands the chunk pointer
    back as it got it, and the object ends as it started.  In particular
    [get_next] never reports the end of the data. *)
Theorem default_lifecycle_is_idle c ops this :
  DataSource.open_override c = None →
  DataSource.get_next_override c = None →
  DataSource.close_override c = None →
  Framework.perform_all c ops this = (Framework.idle <$> ops, this)
  ∧ Forall (fun outcome =>
              match outcome with
              | Framework.Got st _ => Status.is_end_of_file st = false
              | _ => True
              end) (Framework.perform_all c ops this).1.
Proof.
  intros Hopen Hnext Hclose.
  assert (Hall : Framework.perform_all c ops this = (Framework.idle <$> ops, this)).
  { revert this. induction ops as [|op ops IH]; intros this; [reflexivity|].
    cbn [Framework.perform_all]. rewrite perform_idle, IH by assumption. reflexivity. }
  split; [exact Hall|]. rewrite Hall. cbn [fst].
  apply Forall_fmap, Forall_forall. intros [] _; exact I || reflexivity.
Qed.
End Setters.

Lemma set_read_limit_conversion_witness :
  DataSource._read_limit
    (DataSource.base (DataSource.set_read_limit 18446744073709551615 Samples.bare_source))
  = -1.
Proof.
  pose proof (set_read_limit_conversion Samples.bare_source 18446744073709551615)
    as Hconv.
  cbv zeta in Hconv.
  destruct Hconv as (_ & _ & Hmax & _); [split; [lia|reflexivity]|].
  apply Hmax. reflexivity.
Defined.

Lemma has_any_predicate_not_refreshed_witness :
  DataSource.has_any_predicate Samples.bare_source_class
    (Framework.inject_all
       [Framework.SetPredicates [10%N; 11%N]; Framework.SetRuntimeFilters 5%N]
       Samples.bare_source)
  = false.
Proof.
  apply (has_any_predicate_not_refreshed Samples.bare_source_class
           [Framework.SetPredicates [10%N; 11%N]; Framework.SetRuntimeFilters 5%N]
           Samples.bare_source).
  reflexivity.
Defined.

Lemma default_lifecycle_is_idle_witness :
  Framework.perform_all Samples.bare_source_class
    [Framework.CallOpen 1%N; Framework.CallGetNext 1%N None;
     Framework.CallGetNext 1%N (Some [4]); Framework.CallClose 1%N]
    Samples.bare_source
  = ([Framework.Opened Status.OK; Framework.Got Status.OK None;
      Framework.Got Status.OK (Some [4]); Framework.Closed],
     Samples.bare_source).
Proof.
  apply (default_lifecycle_is_idle Samples.bare_source_class
           [Framework.CallOpen 1%N; Framework.CallGetNext 1%N None;
            Framework.CallGetNext 1%N (Some [4]); Framework.CallClose 1%N]
           Samples.bare_source); reflexivity.
Defined.

(** ** Header-bodied calls on a provider *)

Section ProviderInert.
Context {Derived Range Mode Source : Type}.
Implicit Types (c : DataSourceProvider.Class Derived Range Mode Source)
  (this : DataSourceProvider.Object Derived) (ops : list (ProviderCalls.Op Range)).

(** [prepare], [open] and [close], and [init] and [peek_scan_ranges] when
    the class does not override them, never touch the provider: after any
    sequence of these calls every status returned is OK and the provider is
    as it was, so that [could_split()], [could_split_physically()],
    [get_scan_dop()], [get_splitted_scan_rows()] and [partition_exprs()]
    answer as before. *)
Theorem provider_calls_keep_members c ops this :
  DataSourceProvider.init_override c = None →
  DataSourceProvider.peek_scan_ranges_override c = None →
  let '(statuses, after) := ProviderCalls.perform_all c ops this in
  Forall (fun st => st = Status.OK) statuses
  ∧ after = this
  ∧ DataSourceProvider.could_split after = DataSourceProvider.could_split this
  ∧ DataSourceProvider.could_split_physically after
    = DataSourceProvider.could_split_physically this
  ∧ DataSourceProvider.get_scan_dop after = DataSourceProvider.get_scan_dop this
  ∧ DataSourceProvider.get_splitted_scan_rows after
    = DataSourceProvider.get_splitted_scan_rows this
  ∧ DataSourceProvider.partition_exprs after = DataSourceProvider.partition_exprs this.
Proof.
  intros Hinit Hpeek.
  assert (Hall : ∃ statuses,
             ProviderCalls.perform_all c ops this = (statuses, this)
             ∧ Forall (fun st => st = Status.OK) statuses).
  { induction ops as [|op ops (statuses & IH & Hok)]; [exists []; split; [reflexivity|constructor]|].
    cbn [ProviderCalls.perform_all].
    destruct op; unfold ProviderCalls.perform, DataSourceProvider.init,
      DataSourceProvider.peek_scan_ranges; rewrite ?Hinit, ?Hpeek; cbn [dispatch];
      unfold DataSourceProvider.prepare, DataSourceProvider.open, DataSourceProvider.close,
        DataSourceProvider.base_init, DataSourceProvider.base_peek_scan_ranges;
      rewrite IH; eexists; (split; [reflexivity|]);
      first [exact Hok | constructor; [reflexivity|exact Hok]]. }
  destruct Hall as (statuses & -> & Hok). repeat split; exact Hok.
Qed.
End ProviderInert.

Lemma provider_calls_keep_members_witness :
  let calls :=
    [ProviderCalls.Init 1%N 2%N; ProviderCalls.Prepare 2%N; ProviderCalls.PeekScanRanges [4; 5];
     ProviderCalls.Open 2%N; ProviderCalls.Close 2%N] in
  Forall (fun st => st = Status.OK)
    (ProviderCalls.perform_all Samples.plain_provider calls Samples.new_provider).1
  ∧ (ProviderCalls.perform_all Samples.plain_provider calls Samples.new_provider).2
    = Samples.new_provider.
Proof.
  intros calls.
  pose proof (provider_calls_keep_members Samples.plain_provider calls
                Samples.new_provider eq_refl eq_refl) as Hkeep.
  destruct (ProviderCalls.perform_all Samples.plain_provider calls Samples.new_provider)
    as [statuses after].
  destruct Hkeep as (Hok & Hsame & _). split; assumption.
Defined.

(** ** Out-parameters of [default_data_source_mem_bytes] *)

Section OutParameters.
Implicit Types (mem : gmap pointer Z) (min_value max_value : pointer).

(** The memory budget window is not empty, and the per-field amount fits
    the minimum four times. *)
Lemma mem_bytes_window_order :
  0 < DataSourceProvider.PER_FIELD_MEM_BYTES
  ∧ 4 * DataSourceProvider.PER_FIELD_MEM_BYTES = DataSourceProvider.MIN_DATA_SOURCE_MEM_BYTES
  ∧ DataSourceProvider.MIN_DATA_SOURCE_MEM_BYTES < DataSourceProvider.MAX_DATA_SOURCE_MEM_BYTES.
Proof. repeat split. Qed.

(** Called with pointers to two live cells, [default_data_source_mem_bytes]
    stores 256MB in the cell of [max_value]; the cell of [min_value] holds
    16MB afterwards when the two cells differ, and 256MB when both
    pointers name the same cell, because the maximum is stored last.  Every
    other cell keeps its content, and no cell is created or lost.  For two
    different cells this is the pair of values the body yields. *)
Theorem mem_bytes_written_through_pointers mem min_value max_value (old_min old_max : Z) :
  mem !! min_value = Some old_min →
  mem !! max_value = Some old_max →
  ∃ mem',
    OutParams.default_data_source_mem_bytes min_value max_value mem = Some mem'
    ∧ mem' !! max_value = Some (256 * 1024 * 1024)
    ∧ mem' !! min_value
      = Some (if decide (min_value = max_value) then 256 * 1024 * 1024 else 16 * 1024 * 1024)
    ∧ (∀ p, p ≠ min_value → p ≠ max_value → mem' !! p = mem !! p)
    ∧ dom mem' = dom mem
    ∧ (min_value ≠ max_value →
       ∀ (Derived : Type) (this : DataSourceProvider.Object Derived),
         (mem' !! min_value, mem' !! max_value)
         = (Some (DataSourceProvider.base_default_data_source_mem_bytes old_min old_max this).1,
            Some (DataSourceProvider.base_default_data_source_mem_bytes old_min old_max this).2)).
Proof.
  intros Hmin Hmax. unfold OutParams.default_data_source_mem_bytes.
  rewrite Hmin, Hmax. eexists. split; [reflexivity|].
  assert (Hmax' : ∀ m : gmap pointer Z,
            <[max_value := DataSourceProvider.MAX_DATA_SOURCE_MEM_BYTES]> m !! max_value
            = Some (256 * 1024 * 1024)).
  { intros m. rewrite lookup_insert_eq. reflexivity. }
  assert (Hmin' : min_value ≠ max_value →
            <[max_value := DataSourceProvider.MAX_DATA_SOURCE_MEM_BYTES]>
              (<[min_value := DataSourceProvider.MIN_DATA_SOURCE_MEM_BYTES]> mem) !! min_value
            = Some (16 * 1024 * 1024)).
  { intros Hne. rewrite lookup_insert_ne by congruence. rewrite lookup_insert_eq.
    reflexivity. }
  split; [apply Hmax'|].
  split; [destruct (decide (min_value = max_value)) as [->|Hne]; [apply Hmax'|apply Hmin', Hne]|].
  split; [intros p Hp1 Hp2; rewrite !lookup_insert_ne by congruence; reflexivity|].
  split.
  - rewrite dom_insert_lookup_L.
    + apply dom_insert_lookup_L. rewrite Hmin. eauto.
    + apply lookup_insert_is_Some'. right. rewrite Hmax. eauto.
  - intros Hne Derived this. rewrite Hmax', (Hmin' Hne). reflexivity.
Qed.
End OutParameters.

Lemma mem_bytes_written_through_pointers_witness :
  ∃ mem',
    OutParams.default_data_source_mem_bytes 8%N 8%N {[8%N := 0; 16%N := 7]} = Some mem'
    ∧ mem' !! 8%N = Some 268435456
    ∧ mem' !! 16%N = Some 7.
Proof.
  destruct (mem_bytes_written_through_pointers {[8%N := 0; 16%N := 7]} 8%N 8%N 0 0)
    as (mem' & Hcall & Hmax & _ & Hother & _); [vm_compute; reflexivity..|].
  exists mem'. split; [exact Hcall|]. split; [exact Hmax|].
  rewrite Hother by discriminate. vm_compute. reflexivity.
Defined.

(** ** What the fatal log line tells *)

Section FatalMessages.
Context {ScanNode PlanNode Provider SinkProvider : Type}.
Implicit Types (c : Connector.Class ScanNode PlanNode Provider SinkProvider).

(** The fatal log line of an unsupported direction tells which connector
    type and which direction failed: two connectors that implement neither
    direction stream the same text for the read path only if they have the
    same connector type, likewise for the write path, and the text of a
    read path is never the text of a write path. *)
Theorem fatal_text_identifies_connector c1 c2
    (scan_node scan_node' : ScanNode) (plan_node plan_node' : PlanNode) :
  Connector.create_data_source_provider_override c1 = None →
  Connector.create_data_sink_provider_override c1 = None →
  Connector.create_data_source_provider_override c2 = None →
  Connector.create_data_sink_provider_override c2 = None →
  (streamed_text (Connector.create_data_source_provider c1 scan_node plan_node)
   = streamed_text (Connector.create_data_source_provider c2 scan_node' plan_node') →
   Connector.connector_type c1 = Connector.connector_type c2)
  ∧ (streamed_text (Connector.create_data_sink_provider c1)
     = streamed_text (Connector.create_data_sink_provider c2) →
     Connector.connector_type c1 = Connector.connector_type c2)
  ∧ streamed_text (Connector.create_data_source_provider c1 scan_node plan_node)
    ≠ streamed_text (Connector.create_data_sink_provider c2).
Proof.
  intros Hsource1 Hsink1 Hsource2 Hsink2.
  unfold Connector.create_data_source_provider, Connector.create_data_sink_provider.
  rewrite Hsource1, Hsink1, Hsource2, Hsink2. cbn [dispatch].
  unfold Connector.base_create_data_source_provider, Connector.base_create_data_sink_provider,
    Connector.streamed_type.
  destruct (Connector.connector_type c1), (Connector.connector_type c2);
    vm_compute; repeat split; intros; congruence.
Qed.
End FatalMessages.

Lemma fatal_text_identifies_connector_witness :
  streamed_text (Connector.create_data_source_provider Samples.bare_connector tt tt)
  ≠ streamed_text (Connector.create_data_sink_provider Samples.bare_connector).
Proof.
  apply (fatal_text_identifies_connector Samples.bare_connector Samples.bare_connector
           tt tt tt tt eq_refl eq_refl eq_refl eq_refl).
Defined.

(** ** Teardown *)

Section ReaderTeardown.
Context {Row : Type}.
Variable eval_conjunct : pointer → Row → bool.
Variable probe_runtime_filters : pointer → Row → bool.
Implicit Types (this : Reader.Object Row) (state : pointer) (ops : list Reader.Op).

Local Abbreviation class := (Reader.class eval_conjunct probe_runtime_filters).
Local Abbreviation step := (Reader.step eval_conjunct probe_runtime_filters).
Local Abbreviation run := (Reader.run eval_conjunct probe_runtime_filters).

(** What one [close] of the reader does, from whatever state. *)
Lemma reader_close_effect state this :
  let closed := DataSource.close class state this in
  Reader.phase (DataSource.derived closed) = Reader.Closed
  ∧ (Teardown.is_closed (Reader.phase (DataSource.derived this)) = false →
     Reader.pending (DataSource.derived closed) = [])
  ∧ Reader.log (DataSource.derived closed)
    = (if Teardown.is_closed (Reader.phase (DataSource.derived this))
       then Reader.log (DataSource.derived this)
       else Reader.log (DataSource.derived this)
            ++ Teardown.release_log (Reader.release_fault (DataSource.derived this)))
  ∧ DataSource.raw_rows_read class closed = DataSource.raw_rows_read class this
  ∧ DataSource.num_rows_read class closed = DataSource.num_rows_read class this
  ∧ DataSource.base closed = DataSource.base this.
Proof.
  destruct this as [fields [phase acquire reads release raw num log]].
  cbn. unfold Reader.close. cbn.
  destruct phase, release; cbn; rewrite ?app_nil_r; repeat split; discriminate.
Qed.

Lemma step_settled release closed state this op :
  Teardown.settled release closed this →
  Teardown.settled release (closed || Teardown.is_close op) (step state this op).
Proof.
  destruct this as [fields [phase acquire reads fault raw num log]].
  unfold Teardown.settled. cbn. intros (<- & <- & ->).
  destruct op; cbn.
  - unfold Reader.open. cbn. rewrite orb_false_r.
    destruct phase; [destruct acquire| | |]; cbn; repeat split.
  - unfold Reader.get_next. cbn. rewrite orb_false_r.
    destruct phase; cbn; try (repeat split; fail).
    destruct (Reader.pull _ _ _) as [[[kept| |msg] rest] raw']; cbn; repeat split.
  - unfold Reader.close. cbn. rewrite orb_true_r.
    destruct phase, fault; cbn; repeat split.
Qed.

Lemma run_settled release state ops :
  ∀ closed this,
    Teardown.settled release closed this →
    Teardown.settled release (closed || existsb Teardown.is_close ops) (run state ops this).
Proof.
  induction ops as [|op ops IH]; intros closed this Hsettled.
  - cbn. rewrite orb_false_r. exact Hsettled.
  - unfold Reader.run in *. cbn [fold_left existsb]. rewrite orb_assoc.
    apply IH, step_settled, Hsettled.
Qed.
End ReaderTeardown.

(** C7.  [close] may be called any number of times, hands no error to its
    caller and always completes the teardown.  For a data source whose
    class keeps the body of the header, [close] returns and leaves the
    object as it was, so that a second call changes nothing.  For the
    reader, which releases a backend resource: from whatever state,
    [close] returns with the reader closed and nothing left pending, with
    its counters and framework members untouched; a release that fails
    leaves its message in the log and shows nowhere else, the caller getting
    no status back; and calling [close] again changes nothing.  Through any
    sequence of [open], [get_next] and [close] calls on a new reader the
    log holds the release failure exactly once as soon as one [close] has
    run, and is empty before; from the first [close] on the reader stays
    closed. *)
Theorem close_is_repeatable_and_logs_failures :
  (∀ (Derived Chunk : Type) (c : DataSource.Class Derived Chunk)
     (this : DataSource.Object Derived) (state state' : pointer),
     DataSource.close_override c = None →
     DataSource.close c state this = this
     ∧ DataSource.close c state' (DataSource.close c state this)
       = DataSource.close c state this)
  ∧ (∀ (Row : Type) (eval_conjunct probe_runtime_filters : pointer → Row → bool)
       (this : Reader.Object Row) (state state' : pointer),
       let class := Reader.class eval_conjunct probe_runtime_filters in
       let closed := DataSource.close class state this in
       Framework.perform class this (Framework.CallClose state) = (Framework.Closed, closed)
       ∧ Reader.phase (DataSource.derived closed) = Reader.Closed
       ∧ (Teardown.is_closed (Reader.phase (DataSource.derived this)) = false →
          Reader.pending (DataSource.derived closed) = [])
       ∧ Reader.log (DataSource.derived closed)
         = (if Teardown.is_closed (Reader.phase (DataSource.derived this))
            then Reader.log (DataSource.derived this)
            else Reader.log (DataSource.derived this)
                 ++ Teardown.release_log (Reader.release_fault (DataSource.derived this)))
       ∧ DataSource.raw_rows_read class closed = DataSource.raw_rows_read class this
       ∧ DataSource.num_rows_read class closed = DataSource.num_rows_read class this
       ∧ DataSource.base closed = DataSource.base this
       ∧ DataSource.close class state' closed = closed)
  ∧ (∀ (Row : Type) (eval_conjunct probe_runtime_filters : pointer → Row → bool)
       (predicates : list pointer) (runtime_filters : pointer)
       (acquire release : option string) (reads : list (Reader.Read Row))
       (state : pointer) (ops : list Reader.Op),
       let after :=
         Reader.run eval_conjunct probe_runtime_filters state ops
           (Reader.create predicates runtime_filters acquire reads release) in
       Teardown.is_closed (Reader.phase (DataSource.derived after))
         = existsb Teardown.is_close ops
       ∧ Reader.log (DataSource.derived after)
         = (if existsb Teardown.is_close ops then Teardown.release_log release else [])).
Proof.
  split; [|split].
  - intros Derived Chunk c this state state' Hclose.
    unfold DataSource.close. rewrite Hclose. split; reflexivity.
  - intros Row eval_conjunct probe_runtime_filters this state state' class closed.
    pose proof (reader_close_effect eval_conjunct probe_runtime_filters state this)
      as (Hphase & Hpending & Hlog & Hraw & Hnum & Hbase).
    split; [reflexivity|].
    repeat (split; [assumption|]).
    apply reader_close_is_repeatable.
  - intros Row eval_conjunct probe_runtime_filters predicates runtime_filters
      acquire release reads state ops after.
    pose proof (run_settled eval_conjunct probe_runtime_filters release state ops false
                  (Reader.create predicates runtime_filters acquire reads release))
      as (_ & Hclosed & Hlog); [repeat split|].
    cbn [orb] in Hclosed, Hlog. split; assumption.
Qed.

Lemma close_is_repeatable_and_logs_failures_witness :
  DataSource.close Samples.bare_source_class 2%N
    (DataSource.close Samples.bare_source_class 1%N Samples.bare_source)
  = Samples.bare_source
  ∧ Reader.log
      (DataSource.derived
         (Reader.run Samples.above Samples.pass 0%N
            [Reader.DoOpen; Reader.DoGetNext; Reader.DoClose; Reader.DoGetNext; Reader.DoClose]
            Samples.reader))
    = ["release failed"].
Proof.
  destruct close_is_repeatable_and_logs_failures as (Hdefault & _ & Hrun).
  split.
  - destruct (Hdefault unit (list Z) Samples.bare_source_class Samples.bare_source
                1%N 2%N eq_refl) as [Hsame Hagain].
    rewrite Hagain. exact Hsame.
  - apply (Hrun Z Samples.above Samples.pass [10%N] nullptr None (Some "release failed")
             [Reader.Rows [5; 11; 12]; Reader.Rows [1; 2]; Reader.Rows [30; 7]] 0%N
             [Reader.DoOpen; Reader.DoGetNext; Reader.DoClose; Reader.DoGetNext;
              Reader.DoClose]).
Defined.
